(** * gui_auto: the visual target acquisition loop

    A shallow embedding of [src/gui_auto.py]: the display utilities
    ([get_monitors], [point_monitor_index]), the template store
    ([_load_templates]), the search loop ([find_and_click]) with its pointer
    and keyboard actions, and the placement computed by [Hud._update] and
    [show_toast].

    Conventions of the embedding.
    - Python integers are [Z].
    - Python floats (similarity scores, clock readings, the threshold) are
      rationals [Q]: every finite double is a rational, and the sums formed
      by the source (pixel coordinates plus half a template width) are exact
      in double precision.  NaN and the infinities are outside the model.
    - Calls into the operating system and into OpenCV / mss / pyautogui are
      the fields of a record [Sys] over an abstract world state.  A call
      made inside a [try] block either returns or raises ([res]); the calls
      made outside any [try] block ([print], [time.monotonic],
      [time.sleep], the enumeration of the monitors) only return.  For
      the retry sleep of line 166 this holds for a retry interval in the
      range [retry_in_range]; far outside it the source raises
      [OverflowError] there, and the model does not apply.
    - Everything the function does to the outside is recorded, in order, in
      a trace of [event]s: the lines it prints and the calls it makes,
      each call with its outcome. *)

From Stdlib Require Import List ZArith QArith Qround String Bool Lia Lqa.
Import ListNotations.

Open Scope Z_scope.

(** ** Monitor utilities *)

(** A monitor dict of mss: keys left, top, width, height. *)
Record Monitor : Type := mkMonitor {
  left : Z;
  top : Z;
  width : Z;
  height : Z
}.

(** The test of the [if] in [point_monitor_index]. *)
Definition contains_point (m : Monitor) (x y : Z) : bool :=
  (x >=? left m) && (y >=? top m)
  && (x <? left m + width m) && (y <? top m + height m).

(** [for idx, m in enumerate(monitors, start=1)], with [idx] the running
    index. *)
Fixpoint point_monitor_index_from (idx : Z) (x y : Z) (monitors : list Monitor) : Z :=
  match monitors with
  | [] => 0
  | m :: rest =>
      if contains_point m x y then idx
      else point_monitor_index_from (idx + 1) x y rest
  end.

Definition point_monitor_index (x y : Z) (monitors : list Monitor) : Z :=
  point_monitor_index_from 1 x y monitors.

(** The half-open rectangle of the specification, as a proposition. *)
Definition in_rect (m : Monitor) (x y : Z) : Prop :=
  left m <= x < left m + width m /\ top m <= y < top m + height m.

(** ** The outside world *)

(** The message of a caught Python exception. *)
Definition exn : Type := string.

(** A call returns a value or raises. *)
Inductive res (A : Type) : Type :=
| Ret (a : A)
| Exc (e : exn).
Arguments Ret {A} a.
Arguments Exc {A} e.

(** A decoded image: [shape[:2]] is [(rows, cols)]. *)
Record ndarray : Type := mkArray {
  rows : Z;
  cols : Z;
  pixels : list Z
}.

(** An element of the list built by [_load_templates]:
    [(path, tpl, (w, h))]. *)
Definition Template : Type := (string * ndarray * (Z * Z))%type.

(** A monitor dict as a Python object.  [find_and_click] compares monitors
    with [is]; the identity of a dict is modelled by its position in
    [sct.monitors]. *)
Definition MonObj : Type := (nat * Monitor)%type.

(** The value of [cv2.minMaxLoc]: [(min_val, max_val, min_loc, max_loc)]. *)
Definition MinMax : Type := (Q * Q * (Z * Z) * (Z * Z))%type.

(** The lines written to standard output, one constructor per [print] of
    the source, with the values the format string interpolates. *)
Inductive logline : Type :=
| InfoSearching (images : list string) (threshold : Q) (retry_ms timeout_ms : Z)
| WarnCouldNotRead (path : string)
| WarnErrorReading (path : string) (e : exn)
| ErrorNoValidImages
| WarnGrabFailed (mon : Monitor) (e : exn)
| WarnMatchFailed (img_name : string) (e : exn)
| LogMatch (image_name : option string) (mon_idx : Z) (score : Q) (gx gy : Z)
| LogClicked (gx gy : Z)
| LogKeySent
| WarnKeyFailed (e : exn)
| WarnClickFailed (e : exn)
| InfoNoMatch.

(** What the function does to the outside, in order. *)
Inductive event : Type :=
| Print (l : logline)
| EvImread (path : string) (r : res (option ndarray))
| EvMonitors (ms : list Monitor)
| EvGrab (mon : MonObj) (r : res ndarray)
| EvMatch (mon : MonObj) (tpl : Template) (r : res MinMax)
| EvMoveTo (x y : Z) (r : res unit)
| EvClick (r : res unit)
| EvPress (key : string) (r : res unit)
| EvSleep (secs : Q).

Definition trace : Type := list event.

(** The library and system calls of [find_and_click], over a world state
    [St].  [grab_bgr] stands for the two calls of the first [try] block
    ([np.array(sct.grab(mon))], then [cv2.cvtColor]); [match_minmax] for the
    two calls of the second ([cv2.matchTemplate], then [cv2.minMaxLoc]). *)
Record Sys (St : Type) : Type := mkSys {
  imread : string -> St -> res (option ndarray) * St;
  monotonic : St -> Q;
  sct_monitors : St -> list Monitor * St;
  grab_bgr : Monitor -> St -> res ndarray * St;
  match_minmax : ndarray -> ndarray -> St -> res MinMax * St;
  moveTo : Z -> Z -> St -> res unit * St;
  click : St -> res unit * St;
  press : string -> St -> res unit * St;
  sleep : Q -> St -> St
}.
Arguments imread {St} _ _ _.
Arguments monotonic {St} _ _.
Arguments sct_monitors {St} _ _.
Arguments grab_bgr {St} _ _ _.
Arguments match_minmax {St} _ _ _ _.
Arguments moveTo {St} _ _ _ _.
Arguments click {St} _ _.
Arguments press {St} _ _ _.
Arguments sleep {St} _ _ _.

(** ** A monad for state, trace and exceptions *)

Definition M (St A : Type) : Type := St -> res A * trace * St.

Definition ret {St A : Type} (a : A) : M St A := fun s => (Ret a, [], s).

Definition bind {St A B : Type} (m : M St A) (k : A -> M St B) : M St B :=
  fun s =>
    match m s with
    | (Ret a, t1, s1) =>
        match k a s1 with
        | (r, t2, s2) => (r, t1 ++ t2, s2)
        end
    | (Exc e, t1, s1) => (Exc e, t1, s1)
    end.

(** [try: m / except Exception as e: h e]. *)
Definition try_catch {St A : Type} (m : M St A) (h : exn -> M St A) : M St A :=
  fun s =>
    match m s with
    | (Ret a, t1, s1) => (Ret a, t1, s1)
    | (Exc e, t1, s1) =>
        match h e s1 with
        | (r, t2, s2) => (r, t1 ++ t2, s2)
        end
    end.

Definition emit {St : Type} (ev : event) : M St unit := fun s => (Ret tt, [ev], s).

Definition print {St : Type} (l : logline) : M St unit := emit (Print l).

(** A call that may raise, recorded in the trace with its outcome. *)
Definition call {St A : Type} (op : St -> res A * St) (ev : res A -> event) : M St A :=
  fun s => match op s with (r, s1) => (r, [ev r], s1) end.

Declare Scope monad_scope.
Delimit Scope monad_scope with monad.
Notation "x <- m ;; k" := (bind m (fun x => k))
  (at level 61, m at next level, right associativity) : monad_scope.
Notation "m ;; k" := (bind m (fun _ => k))
  (at level 61, right associativity) : monad_scope.
Open Scope monad_scope.

(** ** Python arithmetic on floats *)

(** [a > b] and [a < b] on floats. *)
Definition Qgtb (a b : Q) : bool := negb (Qle_bool a b).
Definition Qltb (a b : Q) : bool := negb (Qle_bool b a).

(** [int(q)]: truncation toward zero. *)
Definition py_int (q : Q) : Z := Z.quot (Qnum q) (Zpos (Qden q)).

(** [max(0.0, q)]. *)
Definition max0 (q : Q) : Q := if Qltb 0 q then q else 0%Q.

(** The retry intervals for which line 166 returns: [retry_ms / 1000.0]
    is a finite float (the integer is below 2^1023 in magnitude) and
    [time.sleep] accepts it on every platform (at most 2^32 - 1
    milliseconds). *)
Definition retry_in_range (retry_ms : Z) : Prop :=
  - 2 ^ 1023 < retry_ms <= 4294967295.

(** ** The program *)

(** The five [best_*] variables of one iteration of the loop. *)
Record Best : Type := mkBest {
  best_val : Q;
  best_loc : option (Z * Z);
  best_tpl_size : option (Z * Z);
  best_monitor : option MonObj;
  best_image_name : option string
}.

(** Their values at the top of an iteration. *)
Definition init_best : Best := mkBest (-1) None None None None.

(** How an iteration leaves the [while] loop. *)
Inductive loop_exit : Type :=
| Returned (b : bool)   (* a [return] inside the loop *)
| Finished              (* the loop condition became false *)
| OutOfFuel.            (* more iterations than the model was given *)

(** [monitors = [m for m in sct.monitors[1:]]], each dict with its
    identity. *)
Definition monitor_objects (ms : list Monitor) : list MonObj :=
  tl (combine (seq 0%nat (List.length ms)) ms).

(** The loop computing [mon_idx]: the 1-based position of the object
    [best_monitor] in [monitors], 0 when absent. *)
Fixpoint monitor_index_from (idx : Z) (monitors : list MonObj) (best : MonObj) : Z :=
  match monitors with
  | [] => 0
  | mon :: rest =>
      if Nat.eqb (fst mon) (fst best) then idx
      else monitor_index_from (idx + 1) rest best
  end.

(** [int(origin + offset + size / 2)], the division being the true
    division of Python. *)
Definition center (origin offset size : Z) : Z :=
  py_int (inject_Z origin + inject_Z offset + inject_Z size / 2)%Q.

Section Program.

Context {St : Type} (sys : Sys St).

(** The body of the [for path in images] loop of [_load_templates]; the
    result is the list [loaded] after this path. *)
Definition load_one (path : string) (loaded : list Template) : M St (list Template) :=
  try_catch
    (tpl <- call (imread sys path) (EvImread path) ;;
     match tpl with
     | None =>
         print (WarnCouldNotRead path) ;;
         ret loaded
     | Some a =>
         let h := rows a in
         let w := cols a in
         ret (loaded ++ [(path, a, (w, h))])
     end)
    (fun e =>
       print (WarnErrorReading path e) ;;
       ret loaded).

Fixpoint load_loop (images : list string) (loaded : list Template) : M St (list Template) :=
  match images with
  | [] => ret loaded
  | path :: rest =>
      loaded' <- load_one path loaded ;;
      load_loop rest loaded'
  end.

Definition _load_templates (images : list string) : M St (list Template) :=
  load_loop images [].

(** The assignment under [if max_val > best_val]. *)
Definition update_best (b : Best) (mon : MonObj) (t : Template) (mm : MinMax) : Best :=
  let '(img_name, _, (tw, th)) := t in
  let '(_, max_val, _, max_loc) := mm in
  if Qgtb max_val (best_val b) then
    mkBest max_val (Some max_loc) (Some (tw, th)) (Some mon) (Some img_name)
  else b.

(** The body of [for img_name, tpl, (tw, th) in templates]. *)
Definition score_one (mon : MonObj) (frame_bgr : ndarray) (t : Template) (b : Best) : M St Best :=
  let '(img_name, tpl, _) := t in
  try_catch
    (mm <- call (match_minmax sys frame_bgr tpl) (EvMatch mon t) ;;
     ret (update_best b mon t mm))
    (fun e =>
       print (WarnMatchFailed img_name e) ;;
       ret b).

Fixpoint tpl_loop (mon : MonObj) (frame_bgr : ndarray) (templates : list Template)
    (b : Best) : M St Best :=
  match templates with
  | [] => ret b
  | t :: rest =>
      b' <- score_one mon frame_bgr t b ;;
      tpl_loop mon frame_bgr rest b'
  end.

(** The body of [for mon in monitors]. *)
Definition scan_monitor (templates : list Template) (mon : MonObj) (b : Best) : M St Best :=
  frame <- try_catch
             (f <- call (grab_bgr sys (snd mon)) (EvGrab mon) ;;
              ret (Some f))
             (fun e =>
                print (WarnGrabFailed (snd mon) e) ;;
                ret None) ;;
  match frame with
  | None => ret b
  | Some frame_bgr => tpl_loop mon frame_bgr templates b
  end.

Fixpoint mon_loop (monitors : list MonObj) (templates : list Template) (b : Best) : M St Best :=
  match monitors with
  | [] => ret b
  | mon :: rest =>
      b' <- scan_monitor templates mon b ;;
      mon_loop rest templates b'
  end.

(** Lines 107-136: one scoring pass over all monitors and templates. *)
Definition score_pass (monitors : list MonObj) (templates : list Template) : M St Best :=
  mon_loop monitors templates init_best.

(** Lines 151-163: move, click, settle, confirm. *)
Definition act (gx gy : Z) : M St unit :=
  try_catch
    (call (moveTo sys gx gy) (EvMoveTo gx gy) ;;
     call (click sys) EvClick ;;
     print (LogClicked gx gy) ;;
     (fun s => (Ret tt, [EvSleep (1 # 10)], sleep sys (1 # 10) s)) ;;
     try_catch
       (call (press sys "y") (EvPress "y") ;;
        print LogKeySent)
       (fun e => print (WarnKeyFailed e)))
    (fun e => print (WarnClickFailed e)).

(** Lines 138-166: what an iteration does with the result of its pass.
    [None] means that the iteration fell through to the next one.  A
    2-tuple and a 4-key dict are true in a condition, so each of
    [best_loc], [best_tpl_size], [best_monitor] is true exactly when it is
    not [None].  The retry sleep of line 166 is taken to return, as it
    does for a retry interval in the range [retry_in_range]; for an
    interval that is no float, or that [time.sleep] refuses, the source
    raises [OverflowError] at that line, outside any [try]. *)
Definition after_pass (monitors : list MonObj) (threshold : Q) (retry_ms : Z) (b : Best)
    : M St (option bool) :=
  match Qle_bool threshold (best_val b), best_loc b, best_tpl_size b, best_monitor b with
  | true, Some loc, Some size, Some mon =>
      let gx := center (left (snd mon)) (fst loc) (fst size) in
      let gy := center (top (snd mon)) (snd loc) (snd size) in
      let mon_idx := monitor_index_from 1 monitors mon in
      print (LogMatch (best_image_name b) mon_idx (best_val b) gx gy) ;;
      act gx gy ;;
      ret (Some true)
  | _, _, _, _ =>
      let secs := max0 (inject_Z retry_ms / 1000)%Q in
      (fun s => (Ret tt, [EvSleep secs], sleep sys secs s)) ;;
      ret None
  end.

(** One iteration of the [while] body. *)
Definition iteration (monitors : list MonObj) (templates : list Template)
    (threshold : Q) (retry_ms : Z) : M St (option bool) :=
  b <- score_pass monitors templates ;;
  after_pass monitors threshold retry_ms b.

(** The test of the [while]. *)
Definition within_timeout (start now : Q) (timeout_ms : Z) : bool :=
  Qltb ((now - start) * 1000)%Q (inject_Z timeout_ms).

Fixpoint search_loop (fuel : nat) (start : Q) (monitors : list MonObj)
    (templates : list Template) (threshold : Q) (retry_ms timeout_ms : Z) : M St loop_exit :=
  match fuel with
  | O => ret OutOfFuel
  | S fuel' =>
      fun s =>
        if within_timeout start (monotonic sys s) timeout_ms then
          (r <- iteration monitors templates threshold retry_ms ;;
           match r with
           | Some v => ret (Returned v)
           | None =>
               search_loop fuel' start monitors templates threshold retry_ms timeout_ms
           end) s
        else ret Finished s
  end.

(** [find_and_click]; [None] when the loop needs more than [fuel]
    iterations. *)
Definition find_and_click (fuel : nat) (images : list string) (threshold : Q)
    (retry_ms timeout_ms : Z) : M St (option bool) :=
  print (InfoSearching images threshold retry_ms timeout_ms) ;;
  templates <- _load_templates images ;;
  match templates with
  | [] =>
      print ErrorNoValidImages ;;
      ret (Some false)
  | _ :: _ =>
      fun s =>
        let start := monotonic sys s in
        (ms <- (fun s0 => let (l, s1) := sct_monitors sys s0 in (Ret l, [EvMonitors l], s1)) ;;
         let monitors := monitor_objects ms in
         e <- search_loop fuel start monitors templates threshold retry_ms timeout_ms ;;
         match e with
         | Returned v => ret (Some v)
         | Finished =>
             print InfoNoMatch ;;
             ret (Some false)
         | OutOfFuel => ret None
         end) s
  end.

End Program.

(** ** Reading a trace *)

(** The lines printed, in order. *)
Definition stdout (t : trace) : list logline :=
  flat_map (fun ev => match ev with Print l => [l] | _ => [] end) t.

(** The decode attempts, each path with the outcome of [cv2.imread]. *)
Definition imread_calls (t : trace) : list (string * res (option ndarray)) :=
  flat_map (fun ev => match ev with EvImread p r => [(p, r)] | _ => [] end) t.

(** The monitors whose capture was attempted, in order. *)
Definition grabbed (t : trace) : list MonObj :=
  flat_map (fun ev => match ev with EvGrab mon _ => [mon] | _ => [] end) t.

(** The number of enumerations of the monitors. *)
Definition enumerations (t : trace) : nat :=
  List.length (filter (fun ev => match ev with EvMonitors _ => true | _ => false end) t).

(** The capture attempts, each monitor with the outcome of the first
    [try] block. *)
Definition grab_calls (t : trace) : list (MonObj * res ndarray) :=
  flat_map (fun ev => match ev with EvGrab mon r => [(mon, r)] | _ => [] end) t.

(** The monitors whose capture succeeded, in order. *)
Definition captured (t : trace) : list MonObj :=
  flat_map (fun a => match a with (mon, Ret _) => [mon] | _ => [] end) (grab_calls t).

(** The scoring attempts, each pairing with the outcome of the second
    [try] block. *)
Definition match_calls (t : trace) : list (MonObj * Template * res MinMax) :=
  flat_map (fun ev => match ev with EvMatch mon tpl r => [(mon, tpl, r)] | _ => [] end) t.

(** A scored pairing: the operands of one comparison [max_val > best_val]. *)
Record Candidate : Type := mkCandidate {
  cand_monitor : MonObj;
  cand_template : Template;
  cand_val : Q;
  cand_loc : Z * Z
}.

Definition candidate_of (a : MonObj * Template * res MinMax) : list Candidate :=
  match a with
  | (mon, tpl, Ret (_, max_val, _, max_loc)) => [mkCandidate mon tpl max_val max_loc]
  | (_, _, Exc _) => []
  end.

(** The pairings scored without error, in the order they were scored. *)
Definition scored (t : trace) : list Candidate :=
  flat_map candidate_of (match_calls t).

(** All pairings of the given monitors with the templates: monitor by
    monitor, and for each monitor template by template. *)
Definition pairings (monitors : list MonObj) (templates : list Template)
    : list (MonObj * Template) :=
  flat_map (fun mon => map (pair mon) templates) monitors.

(** The [best_*] variables after the assignment under
    [if max_val > best_val], for a candidate. *)
Definition best_of (c : Candidate) : Best :=
  let '(img_name, _, size) := cand_template c in
  mkBest (cand_val c) (Some (cand_loc c)) (Some size) (Some (cand_monitor c)) (Some img_name).

(** Events of the scoring pass and of the retry sleep: no enumeration, no
    pointer or keyboard action, no decode. *)
Definition passive (ev : event) : bool :=
  match ev with
  | Print (WarnGrabFailed _ _) | Print (WarnMatchFailed _ _) => true
  | EvGrab _ _ | EvMatch _ _ _ | EvSleep _ => true
  | _ => false
  end.

(** Calls of the action executor. *)
Definition is_press (ev : event) : bool :=
  match ev with EvPress _ _ => true | _ => false end.

Definition is_capture_or_score (ev : event) : bool :=
  match ev with EvGrab _ _ | EvMatch _ _ _ => true | _ => false end.

(** The similarity a printed line reports, if it reports one. *)
Definition reported_score (l : logline) : option Q :=
  match l with
  | LogMatch _ _ score _ _ => Some score
  | _ => None
  end.

(** The similarities computed during a run. *)
Definition scores_seen (t : trace) : list Q := map cand_val (scored t).

(** What [cv2.imread] returns for each path of the list, in order, the
    world going from one call to the next; and the world after the last
    call. *)
Fixpoint decode_all {St : Type} (sys : Sys St) (images : list string) (s : St)
    : list (string * res (option ndarray)) * St :=
  match images with
  | [] => ([], s)
  | path :: rest =>
      let (r, s1) := imread sys path s in
      let (l, s2) := decode_all sys rest s1 in
      ((path, r) :: l, s2)
  end.

(** What [_load_templates] makes of one decode attempt: a template, or a
    warning naming the path. *)
Definition loaded_of (a : string * res (option ndarray)) : list Template :=
  match a with
  | (path, Ret (Some img)) => [(path, img, (cols img, rows img))]
  | _ => []
  end.

Definition warning_of (a : string * res (option ndarray)) : list logline :=
  match a with
  | (path, Ret (Some _)) => []
  | (path, Ret None) => [WarnCouldNotRead path]
  | (path, Exc e) => [WarnErrorReading path e]
  end.

(** ** The specification's words, for comparison *)

(** "The single candidate with the strictly greatest similarity ...; ties
    keep the first-seen candidate": a later candidate replaces the kept one
    only when strictly greater. *)
Fixpoint first_greatest_from (kept : Candidate) (cs : list Candidate) : Candidate :=
  match cs with
  | [] => kept
  | c :: rest =>
      if Qgtb (cand_val c) (cand_val kept) then first_greatest_from c rest
      else first_greatest_from kept rest
  end.

Definition first_greatest (cs : list Candidate) : option Candidate :=
  match cs with
  | [] => None
  | c :: rest => Some (first_greatest_from c rest)
  end.

(** What the loop retains, read off the [best_*] variables. *)
Definition retained (b : Best) : option (Q * (Z * Z) * (Z * Z) * MonObj * string) :=
  match best_loc b, best_tpl_size b, best_monitor b, best_image_name b with
  | Some loc, Some size, Some mon, Some name => Some (best_val b, loc, size, mon, name)
  | _, _, _, _ => None
  end.

(** "x = monitor.left + offset.x + template.width/2 ... with the division
    truncated to an integer toward zero". *)
Definition center_div_truncated (origin offset size : Z) : Z :=
  origin + offset + Z.quot size 2.

(** ** Scripted worlds

    Concrete worlds on which the program can be run.  The state is the
    reading of the clock in milliseconds; a capture costs 10 ms, a scoring
    5 ms, and a sleep its duration. *)

Record Script : Type := mkScript {
  sc_files : string -> res (option ndarray);
  sc_monitors : list Monitor;
  sc_grab : Monitor -> res ndarray;
  sc_score : ndarray -> ndarray -> res MinMax;
  sc_move : res unit;
  sc_click : res unit;
  sc_press : res unit
}.

Definition scripted (sc : Script) : Sys nat :=
  {| imread := fun p s => (sc_files sc p, s);
     monotonic := fun s => (inject_Z (Z.of_nat s) / 1000)%Q;
     sct_monitors := fun s => (sc_monitors sc, s);
     grab_bgr := fun m s => (sc_grab sc m, (s + 10)%nat);
     match_minmax := fun f t s => (sc_score sc f t, (s + 5)%nat);
     moveTo := fun _ _ s => (sc_move sc, s);
     click := fun s => (sc_click sc, s);
     press := fun _ s => (sc_press sc, s);
     sleep := fun secs s => (s + Z.to_nat (Qfloor (secs * 1000)))%nat |}.

(** The virtual bounding box, a primary monitor, and a second monitor to
    its left. *)
Definition virtual_box : Monitor := mkMonitor (-1920) 0 3840 1080.
Definition primary : Monitor := mkMonitor 0 0 1920 1080.
Definition left_monitor : Monitor := mkMonitor (-1920) 0 1920 1080.

Definition two_monitors : list Monitor := [virtual_box; primary; left_monitor].

(** A captured frame; its pixel data here just records where it was
    taken. *)
Definition frame_of (m : Monitor) : ndarray :=
  mkArray (height m) (width m) [left m; top m].

(** A 51 x 40 template, a 60 x 30 one, a missing file and a corrupt one. *)
Definition files (p : string) : res (option ndarray) :=
  if String.eqb p "accept_green.png" then Ret (Some (mkArray 40 51 [1]))
  else if String.eqb p "accept_green-2.png" then Ret (Some (mkArray 30 60 [2]))
  else if String.eqb p "corrupt.png" then Exc "corrupt data"%string
  else Ret None.

(** Every pairing scores [v] at offset (100, 200). *)
Definition score_const (v : Q) (f t : ndarray) : res MinMax :=
  Ret (0%Q, v, (0, 0), (100, 200)).

(** The first template scores 19/20 on the left monitor; every other
    pairing scores 1/2. *)
Definition score_left (f t : ndarray) : res MinMax :=
  match pixels f, pixels t with
  | [-1920; 0], [1] => Ret (0%Q, (19 # 20)%Q, (0, 0), (100, 200))
  | _, _ => Ret (0%Q, (1 # 2)%Q, (0, 0), (5, 5))
  end.

(** The second template cannot be scored at all. *)
Definition score_second_fails (f t : ndarray) : res MinMax :=
  match pixels t with
  | [2] => Exc "bad size"%string
  | _ => Ret (0%Q, (1 # 2)%Q, (0, 0), (5, 5))
  end.

(** What [cv2.matchTemplate] does with the sizes of its operands.  When
    the template is larger than the image on some axis, OpenCV requires it
    to be at least as large on both axes and then swaps the two operands
    and returns a result; when it is larger on one axis and smaller on the
    other, the call raises.  Here a swapped pairing scores 1 at offset
    (0, 0) and a fitting one 1/2 at offset (5, 5). *)
Definition score_opencv_sizes (f t : ndarray) : res MinMax :=
  if (cols f <? cols t) || (rows f <? rows t) then
    if (cols f <=? cols t) && (rows f <=? rows t) then
      Ret (0%Q, 1%Q, (0, 0), (0, 0))
    else Exc "OpenCV: assertion failed in matchTemplate"%string
  else Ret (0%Q, (1 # 2)%Q, (0, 0), (5, 5)).

(** A window-sized capture area, 50 x 30. *)
Definition small_area : Monitor := mkMonitor 0 0 50 30.

(** A template wider than that area but less high, and one that fits. *)
Definition wide_template : Template := ("wide.png"%string, mkArray 20 60 [4], (60, 20)).
Definition dot_template : Template := ("dot.png"%string, mkArray 4 4 [3], (4, 4)).

Definition ok : res unit := Ret tt.

Definition world (score : ndarray -> ndarray -> res MinMax)
    (move clk key : res unit) : Sys nat :=
  scripted (mkScript files two_monitors (fun m => Ret (frame_of m)) score move clk key).

(** All is well and the target is on the left monitor. *)
Definition world_found : Sys nat := world score_left ok ok ok.

(** The target is found but the pointer cannot be moved. *)
Definition world_move_fails : Sys nat := world score_left (Exc "fail-safe"%string) ok ok.

(** The target is never there: similarity 1/2, respectively 1/4. *)
Definition world_half : Sys nat := world (score_const (1 # 2)) ok ok ok.
Definition world_quarter : Sys nat := world (score_const (1 # 4)) ok ok ok.

(** Every pairing is perfectly anti-correlated. *)
Definition world_inverted : Sys nat := world (score_const (-1)) ok ok ok.

(** The primary monitor cannot be captured. *)
Definition world_primary_dark : Sys nat :=
  scripted (mkScript files two_monitors
              (fun m => if left m =? 0 then Exc "grab failed"%string else Ret (frame_of m))
              score_left ok ok ok).

(** No monitor is connected: the enumeration has the virtual bounding box
    only. *)
Definition world_headless : Sys nat :=
  scripted (mkScript files [virtual_box] (fun m => Ret (frame_of m)) score_left ok ok ok).

(** One small capture area, scored as OpenCV does. *)
Definition world_small : Sys nat :=
  scripted (mkScript files [small_area; small_area] (fun m => Ret (frame_of m))
              score_opencv_sizes ok ok ok).

(** The default arguments of [main]. *)
Definition default_images : list string :=
  ["accept_green.png"%string; "accept_green-2.png"%string].
Definition default_threshold : Q := (85 # 100)%Q.

(** What [_load_templates] returns for [default_images] in these worlds. *)
Definition green_template : Template :=
  ("accept_green.png"%string, mkArray 40 51 [1], (51, 40)).

Definition default_templates : list Template :=
  [green_template; ("accept_green-2.png"%string, mkArray 30 60 [2], (60, 30))].

(** ** Properties of a pass and of a run *)

(** One comparison [if max_val > best_val] and its assignment, by
    candidate. *)
Definition keep_better (b : Best) (c : Candidate) : Best :=
  if Qgtb (cand_val c) (best_val b) then best_of c else b.

(** The relation between the [best_*] variables and the candidates scored
    so far: nothing is kept while no similarity exceeds the initial -1.0;
    otherwise the kept candidate exceeds -1.0, every candidate before it is
    strictly smaller and no candidate after it is greater. *)
Definition Kept (b : Best) (cs : list Candidate) : Prop :=
  (b = init_best /\ Forall (fun c => (cand_val c <= -1)%Q) cs)
  \/ (exists pre c post,
        cs = pre ++ c :: post /\ b = best_of c /\ (-1 < cand_val c)%Q /\
        Forall (fun p => (cand_val p < cand_val c)%Q) pre /\
        Forall (fun q => (cand_val q <= cand_val c)%Q) post).

(** The four possible traces of [act]. *)
Definition act_trace (gx gy : Z) (ta : trace) : Prop :=
  (exists e, ta = [EvMoveTo gx gy (Exc e); Print (WarnClickFailed e)])
  \/ (exists e, ta = [EvMoveTo gx gy (Ret tt); EvClick (Exc e); Print (WarnClickFailed e)])
  \/ (exists e, ta = [EvMoveTo gx gy (Ret tt); EvClick (Ret tt); Print (LogClicked gx gy);
                      EvSleep (1 # 10); EvPress "y" (Exc e); Print (WarnKeyFailed e)])
  \/ ta = [EvMoveTo gx gy (Ret tt); EvClick (Ret tt); Print (LogClicked gx gy);
           EvSleep (1 # 10); EvPress "y" (Ret tt); Print LogKeySent].

(** What [find_and_click] prints and returns for each way out of the
    loop. *)
Definition exit_trace (e : loop_exit) : trace :=
  match e with
  | Finished => [Print InfoNoMatch]
  | _ => []
  end.

Definition exit_value (e : loop_exit) : option bool :=
  match e with
  | Returned v => Some v
  | Finished => Some false
  | OutOfFuel => None
  end.

(** [q] is the greatest element of [l]. *)
Definition greatest (q : Q) (l : list Q) : Prop :=
  In q l /\ Forall (fun x => (x <= q)%Q) l.

(** The events of a loading trace: decode attempts and the two
    warnings. *)
Definition load_event (ev : event) : Prop :=
  match ev with
  | EvImread _ _ | Print (WarnCouldNotRead _) | Print (WarnErrorReading _ _) => True
  | _ => False
  end.

(** What a pass, or a part of one, leaves behind: it returns, with the
    variables obtained from the comparisons of the pairings it scored; it
    tried to capture [ms]; it tried every pairing of a captured monitor;
    and its events are all passive. *)
Definition pass_result {St : Type} (out : res Best * trace * St) (b : Best)
    (ms : list MonObj) (templates : list Template) : Prop :=
  let '(r, t, _) := out in
  r = Ret (fold_left keep_better (scored t) b)
  /\ grabbed t = ms
  /\ map fst (match_calls t) = pairings (captured t) templates
  /\ Forall (fun ev => passive ev = true) t.

(** What a run of the loop leaves behind: [k] passes over the same list of
    monitors with nothing but passive events, and then either the loop ends
    without a match, or the match is reported and acted on. *)
Definition loop_result {St : Type} (out : res loop_exit * trace * St)
    (monitors : list MonObj) (threshold : Q) : Prop :=
  let '(r, t, _) := out in
  exists (k : nat) (tp : trace),
    Forall (fun ev => passive ev = true) tp
    /\ grabbed tp = List.concat (repeat monitors k)
    /\ (((r = Ret Finished \/ r = Ret OutOfFuel) /\ t = tp)
        \/ (exists name idx score gx gy ta,
              r = Ret (Returned true)
              /\ t = tp ++ Print (LogMatch name idx score gx gy) :: ta
              /\ (threshold <= score)%Q
              /\ act_trace gx gy ta)).

(** Events that occur before a match is reported: everything but the
    report of a match and the calls and lines of [act]. *)
Definition quiet (ev : event) : bool :=
  match ev with
  | Print (LogMatch _ _ _ _ _) | Print (LogClicked _ _) | Print LogKeySent
  | Print (WarnKeyFailed _) | Print (WarnClickFailed _)
  | EvMoveTo _ _ _ | EvClick _ | EvPress _ _ => false
  | _ => true
  end.

(** ** The specification's statements that the code does not satisfy *)

(** "The loop retains exactly the candidate with the strictly greatest
    similarity; ties keep the first-seen one", for one pass in one world. *)
Definition retains_first_greatest {St : Type} (sys : Sys St)
    (monitors : list MonObj) (templates : list Template) (s : St) : Prop :=
  exists b t s',
    score_pass sys monitors templates s = (Ret b, t, s') /\
    match first_greatest (scored t) with
    | Some c => b = best_of c
    | None => b = init_best
    end.

(** "Whenever the best candidate's similarity is at least the threshold,
    the click point is [monitor.left + offset.x + template.width/2],
    [monitor.top + offset.y + template.height/2], with the division
    truncated", for the iteration that starts in state [s]. *)
Definition acts_at_truncated_center {St : Type} (sys : Sys St) (fuel : nat) (start : Q)
    (monitors : list MonObj) (templates : list Template) (threshold : Q)
    (retry_ms timeout_ms : Z) (s : St) : Prop :=
  forall b t1 s1 v lx ly tw th mon name,
    within_timeout start (monotonic sys s) timeout_ms = true ->
    score_pass sys monitors templates s = (Ret b, t1, s1) ->
    retained b = Some (v, (lx, ly), (tw, th), mon, name) ->
    (threshold <= v)%Q ->
    exists line r ta s2,
      search_loop sys (S fuel) start monitors templates threshold retry_ms timeout_ms s
      = (Ret (Returned true),
         t1 ++ Print line
            :: EvMoveTo (center_div_truncated (left (snd mon)) lx tw)
                        (center_div_truncated (top (snd mon)) ly th) r
            :: ta,
         s2).

(** "Scoring a template strictly larger than the frame along either axis
    ... contributes no candidate", for one pairing: the [best_*] variables
    are left as they were and nothing is scored. *)
Definition oversize_pairing_is_skipped {St : Type} (sys : Sys St) (mon : MonObj)
    (frame_bgr : ndarray) (t : Template) (b : Best) (s : St) : Prop :=
  cols frame_bgr < cols (snd (fst t)) \/ rows frame_bgr < rows (snd (fst t)) ->
  fst (fst (score_one sys mon frame_bgr t b s)) = Ret b
  /\ scored (snd (fst (score_one sys mon frame_bgr t b s))) = [].

(** "On EXPIRED, the core reports not found plus the best score seen":
    the best similarity of the run can be read off what the call returns
    and prints. *)
Definition not_found_carries_best_score : Prop :=
  exists decode : option bool * list logline -> Q,
    forall (sys : Sys nat) fuel images threshold retry_ms timeout_ms s v t s' best,
      find_and_click sys fuel images threshold retry_ms timeout_ms s = (Ret v, t, s') ->
      v = Some false ->
      greatest best (scores_seen t) ->
      (decode (v, stdout t) == best)%Q.

(** ** The other display utilities *)

(** [l[i]] on a Python list, negative indices included; out of range it
    raises [IndexError]. *)
Definition py_index {A : Type} (l : list A) (i : Z) : res A :=
  let n := Z.of_nat (List.length l) in
  let j := if i <? 0 then i + n else i in
  if (0 <=? j) && (j <? n) then
    match nth_error l (Z.to_nat j) with
    | Some a => Ret a
    | None => Exc "list index out of range"%string
    end
  else Exc "list index out of range"%string.

Section Display.

Context {St : Type} (sys : Sys St).

(** [get_monitors]: a fresh enumeration, the virtual bounding box dropped,
    each dict copied key by key. *)
Definition get_monitors : M St (list Monitor) :=
  ms <- (fun s0 => let (l, s1) := sct_monitors sys s0 in (Ret l, [EvMonitors l], s1)) ;;
  ret (map (fun m => mkMonitor (left m) (top m) (width m) (height m)) (tl ms)).

End Display.

(** The first lines of [Hud._update] and of [show_toast]: the pointer
    position, or the origin when [pyautogui.position()] raises. *)
Definition pointer_or_origin (pos : res (Z * Z)) : Z * Z :=
  match pos with
  | Ret p => p
  | Exc _ => (0, 0)
  end.

(** Lines 241-242 and 281-282: a window of width [ww] against the top
    right corner of [mon], 20 pixels in. *)
Definition top_right (mon : Monitor) (ww : Z) : Z * Z :=
  (left mon + width mon - ww - 20, top mon + 20).

(** Lines 225-246 of [Hud._update], for a HUD that is shown: the values
    put in the label ([x], [y], [mon_idx]) and, when the window is moved,
    the values put in its geometry string ([ww], [wh], [nx], [ny]).  The
    monitor dicts have four keys, so [if mon] tests [mon] against
    [None]. *)
Definition hud_update (pos : res (Z * Z)) (ww wh : Z) (monitors : list Monitor)
    : res ((Z * Z * Z) * option (Z * Z * Z * Z)) :=
  let '(x, y) := pointer_or_origin pos in
  let mon_idx := point_monitor_index x y monitors in
  if (1 <=? mon_idx) && (mon_idx <=? Z.of_nat (List.length monitors)) then
    match py_index monitors (mon_idx - 1) with
    | Ret mon =>
        let '(nx, ny) := top_right mon ww in
        Ret ((x, y, mon_idx), Some (ww, wh, nx, ny))
    | Exc e => Exc e
    end
  else Ret ((x, y, mon_idx), None).

(** Lines 271-284 of [show_toast]: the values put in the geometry string
    of the toast. *)
Definition toast_geometry (pos : res (Z * Z)) (ww wh : Z) (monitors : list Monitor)
    : res (Z * Z * Z * Z) :=
  let '(x, y) := pointer_or_origin pos in
  let idx := point_monitor_index x y monitors in
  match (if (1 <=? idx) && (idx <=? Z.of_nat (List.length monitors))
         then py_index monitors (idx - 1)
         else py_index monitors 0) with
  | Ret mon =>
      let '(nx, ny) := top_right mon ww in
      Ret (ww, wh, nx, ny)
  | Exc e => Exc e
  end.

(** Two monitors share no point. *)
Definition disjoint (m1 m2 : Monitor) : Prop :=
  forall x y, ~ (in_rect m1 x y /\ in_rect m2 x y).

(** ** More ways to read a trace *)

(** The points the pointer was sent to. *)
Definition moves (t : trace) : list (Z * Z) :=
  flat_map (fun ev => match ev with EvMoveTo x y _ => [(x, y)] | _ => [] end) t.

(** The number of clicks attempted. *)
Definition clicks (t : trace) : nat :=
  List.length (filter (fun ev => match ev with EvClick _ => true | _ => false end) t).

(** The keys whose press was attempted. *)
Definition presses (t : trace) : list string :=
  flat_map (fun ev => match ev with EvPress key _ => [key] | _ => [] end) t.

(** The durations slept. *)
Definition sleeps (t : trace) : list Q :=
  flat_map (fun ev => match ev with EvSleep q => [q] | _ => [] end) t.

(** The events of a scoring pass. *)
Definition pass_event (ev : event) : bool :=
  match ev with
  | Print (WarnGrabFailed _ _) | Print (WarnMatchFailed _ _) => true
  | EvGrab _ _ | EvMatch _ _ _ => true
  | _ => false
  end.

(** The trace of one pass over [monitors] and [templates]. *)
Definition pass_trace (monitors : list MonObj) (templates : list Template) (p : trace)
    : Prop :=
  Forall (fun ev => pass_event ev = true) p
  /\ grabbed p = monitors
  /\ map fst (match_calls p) = pairings (captured p) templates.

(** Some pairing scored in the pass [p] reaches the threshold and lies
    above the initial -1.0. *)
Definition accepting (threshold : Q) (p : trace) : Prop :=
  exists c, In c (scored p) /\ (threshold <= cand_val c)%Q /\ (-1 < cand_val c)%Q.

(** The point [find_and_click] computes for a candidate. *)
Definition click_point (c : Candidate) : Z * Z :=
  let '(_, _, (tw, th)) := cand_template c in
  (center (left (snd (cand_monitor c))) (fst (cand_loc c)) tw,
   center (top (snd (cand_monitor c))) (snd (cand_loc c)) th).

(** The [match] line for a candidate. *)
Definition match_line (monitors : list MonObj) (c : Candidate) : logline :=
  LogMatch (Some (fst (fst (cand_template c))))
    (monitor_index_from 1 monitors (cand_monitor c))
    (cand_val c) (fst (click_point c)) (snd (click_point c)).

(** The retry sleep of [find_and_click]. *)
Definition retry_sleep (retry_ms : Z) : Q := max0 (inject_Z retry_ms / 1000)%Q.

(** The trace of the iterations that found nothing: each a pass followed
    by the retry sleep. *)
Definition failed_iterations (retry_ms : Z) (failed : list trace) : trace :=
  List.concat (map (fun p => p ++ [EvSleep (retry_sleep retry_ms)]) failed).

(** What a run of the loop consists of: a number of passes that accept
    nothing, each followed by the retry sleep, and then the end of the
    loop, or a last pass whose first greatest candidate is reported and
    acted on. *)
Definition loop_iterations {St : Type} (out : res loop_exit * trace * St) (fuel : nat)
    (monitors : list MonObj) (templates : list Template) (threshold : Q) (retry_ms : Z)
    : Prop :=
  let '(r, t, _) := out in
  exists failed : list trace,
    Forall (pass_trace monitors templates) failed
    /\ Forall (fun p => ~ accepting threshold p) failed
    /\ ((r = Ret Finished /\ (List.length failed <= fuel)%nat
         /\ t = failed_iterations retry_ms failed)
        \/ (r = Ret OutOfFuel /\ List.length failed = fuel
            /\ t = failed_iterations retry_ms failed)
        \/ (exists last pre c post ta,
              r = Ret (Returned true)
              /\ (List.length failed < fuel)%nat
              /\ pass_trace monitors templates last
              /\ scored last = pre ++ c :: post
              /\ Forall (fun p => (cand_val p < cand_val c)%Q) pre
              /\ Forall (fun q => (cand_val q <= cand_val c)%Q) post
              /\ (-1 < cand_val c)%Q
              /\ (threshold <= cand_val c)%Q
              /\ act_trace (fst (click_point c)) (snd (click_point c)) ta
              /\ t = failed_iterations retry_ms failed
                     ++ last ++ Print (match_line monitors c) :: ta)).

(** A world whose clock does not run backwards during a capture or a
    scoring, and advances by at least the retry sleep while the loop
    sleeps. *)
Definition ticking {St : Type} (sys : Sys St) (retry_ms : Z) : Prop :=
  (forall m s, (monotonic sys s <= monotonic sys (snd (grab_bgr sys m s)))%Q)
  /\ (forall f t s, (monotonic sys s <= monotonic sys (snd (match_minmax sys f t s)))%Q)
  /\ (forall s, (monotonic sys s + retry_sleep retry_ms
                 <= monotonic sys (sleep sys (retry_sleep retry_ms) s))%Q).

(** * Proofs *)

(** ** Locating a point *)

Lemma contains_point_spec (m : Monitor) (x y : Z) :
  contains_point m x y = true <-> in_rect m x y.
Proof.
  unfold contains_point, in_rect.
  rewrite !andb_true_iff, !Z.geb_le, !Z.ltb_lt. lia.
Qed.

Lemma point_monitor_index_from_spec (x y : Z) (monitors : list Monitor) :
  forall idx,
    (point_monitor_index_from idx x y monitors = 0
     /\ Forall (fun m => ~ in_rect m x y) monitors)
    \/ (exists pre m post,
          monitors = pre ++ m :: post
          /\ point_monitor_index_from idx x y monitors = idx + Z.of_nat (List.length pre)
          /\ in_rect m x y
          /\ Forall (fun p => ~ in_rect p x y) pre).
Proof.
  induction monitors as [|m rest IH]; intro idx; simpl.
  - left. split; [reflexivity | constructor].
  - destruct (contains_point m x y) eqn:E.
    + right. exists [], m, rest. simpl.
      split; [reflexivity | split; [lia | split]].
      * apply contains_point_spec, E.
      * constructor.
    + assert (Hm : ~ in_rect m x y).
      { intro H. apply contains_point_spec in H. congruence. }
      destruct (IH (idx + 1)) as [[H0 Hall] | (pre & m' & post & Heq & Hidx & Hin & Hpre)].
      * left. split; [exact H0 | constructor; assumption].
      * right. exists (m :: pre), m', post. subst rest. simpl List.length.
        split; [reflexivity | split; [lia | split]].
        -- exact Hin.
        -- constructor; assumption.
Qed.

(** C3. [point_monitor_index] returns 0 exactly when no monitor's
    half-open rectangle [left, left+width) x [top, top+height) contains the
    point, and otherwise the 1-based position of the first monitor, in list
    order, whose rectangle contains it. *)
Theorem point_monitor_index_first_containing (x y : Z) (monitors : list Monitor) :
  (point_monitor_index x y monitors = 0
   /\ Forall (fun m => ~ in_rect m x y) monitors)
  \/ (exists pre m post,
        monitors = pre ++ m :: post
        /\ point_monitor_index x y monitors = Z.of_nat (List.length pre) + 1
        /\ in_rect m x y
        /\ Forall (fun p => ~ in_rect p x y) pre).
Proof.
  unfold point_monitor_index.
  destruct (point_monitor_index_from_spec x y monitors 1)
    as [H | (pre & m & post & Heq & Hidx & Hin & Hpre)].
  - left. exact H.
  - right. exists pre, m, post.
    split; [exact Heq | split; [lia | split; assumption]].
Qed.

(** The edges of a 1920 x 1080 monitor at the origin, next to one on its
    right: the left and top edges belong to a monitor, the right and bottom
    edges do not. *)
Example point_monitor_index_edges :
  let monitors := [mkMonitor 0 0 1920 1080; mkMonitor 1920 0 1920 1080] in
  point_monitor_index 0 0 monitors = 1
  /\ point_monitor_index 1919 1079 monitors = 1
  /\ point_monitor_index 1920 0 monitors = 2
  /\ point_monitor_index 0 1080 monitors = 0
  /\ point_monitor_index 3840 0 monitors = 0
  /\ point_monitor_index (-1) 0 monitors = 0.
Proof. repeat split. Qed.

(** ** Reading traces: distribution over concatenation *)

Lemma stdout_app (t1 t2 : trace) : stdout (t1 ++ t2) = stdout t1 ++ stdout t2.
Proof. apply flat_map_app. Qed.

Lemma imread_calls_app (t1 t2 : trace) :
  imread_calls (t1 ++ t2) = imread_calls t1 ++ imread_calls t2.
Proof. apply flat_map_app. Qed.

Lemma grab_calls_app (t1 t2 : trace) :
  grab_calls (t1 ++ t2) = grab_calls t1 ++ grab_calls t2.
Proof. apply flat_map_app. Qed.

Lemma grabbed_app (t1 t2 : trace) : grabbed (t1 ++ t2) = grabbed t1 ++ grabbed t2.
Proof. apply flat_map_app. Qed.

Lemma captured_app (t1 t2 : trace) : captured (t1 ++ t2) = captured t1 ++ captured t2.
Proof. unfold captured. rewrite grab_calls_app. apply flat_map_app. Qed.

Lemma match_calls_app (t1 t2 : trace) :
  match_calls (t1 ++ t2) = match_calls t1 ++ match_calls t2.
Proof. apply flat_map_app. Qed.

Lemma scored_app (t1 t2 : trace) : scored (t1 ++ t2) = scored t1 ++ scored t2.
Proof. unfold scored. rewrite match_calls_app. apply flat_map_app. Qed.

Lemma enumerations_app (t1 t2 : trace) :
  enumerations (t1 ++ t2) = (enumerations t1 + enumerations t2)%nat.
Proof. unfold enumerations. rewrite filter_app. apply length_app. Qed.

(** ** Loading the templates *)

Section Loading.

Context {St : Type} (sys : Sys St).

(** The three ways through the body of the loading loop. *)
Lemma load_one_run (path : string) (loaded : list Template) (s : St) :
  load_one sys path loaded s =
  match imread sys path s with
  | (Ret (Some a), s1) =>
      (Ret (loaded ++ [(path, a, (cols a, rows a))]), [EvImread path (Ret (Some a))], s1)
  | (Ret None, s1) =>
      (Ret loaded, [EvImread path (Ret None); Print (WarnCouldNotRead path)], s1)
  | (Exc e, s1) =>
      (Ret loaded, [EvImread path (Exc e); Print (WarnErrorReading path e)], s1)
  end.
Proof.
  unfold load_one, try_catch, bind, call, print, emit, ret.
  destruct (imread sys path s) as [[[a|]|e] s1]; reflexivity.
Qed.

Lemma load_one_spec (path : string) (loaded : list Template) (s : St) :
  exists r s1,
    load_one sys path loaded s
    = (Ret (loaded ++ loaded_of (path, r)),
       EvImread path r :: map Print (warning_of (path, r)), s1).
Proof.
  rewrite load_one_run.
  destruct (imread sys path s) as [[[a|]|e] s1]; simpl.
  - exists (Ret (Some a)), s1. reflexivity.
  - exists (Ret None), s1. simpl. rewrite app_nil_r. reflexivity.
  - exists (Exc e), s1. simpl. rewrite app_nil_r. reflexivity.
Qed.

Lemma stdout_map_Print (ls : list logline) : stdout (map Print ls) = ls.
Proof. induction ls as [|l ls IH]; simpl; [reflexivity | f_equal; exact IH]. Qed.

Lemma imread_calls_map_Print (ls : list logline) : imread_calls (map Print ls) = [].
Proof. induction ls as [|l ls IH]; simpl; [reflexivity | exact IH]. Qed.

Lemma load_loop_spec (images : list string) :
  forall (loaded : list Template) (s : St),
  exists t s',
    load_loop sys images loaded s
    = (Ret (loaded ++ flat_map loaded_of (imread_calls t)), t, s')
    /\ map fst (imread_calls t) = images
    /\ stdout t = flat_map warning_of (imread_calls t)
    /\ Forall load_event t.
Proof.
  induction images as [|path rest IH]; intros loaded s; simpl.
  - exists [], s. unfold ret. simpl. rewrite app_nil_r. repeat split. constructor.
  - destruct (load_one_spec path loaded s) as (r & s1 & H1).
    destruct (IH (loaded ++ loaded_of (path, r)) s1) as (t & s' & H2 & Hp & Ho & Hev).
    exists ((EvImread path r :: map Print (warning_of (path, r))) ++ t), s'.
    unfold bind. rewrite H1, H2.
    rewrite imread_calls_app, stdout_app. simpl imread_calls. simpl stdout.
    rewrite imread_calls_map_Print, stdout_map_Print. simpl.
    rewrite <- app_assoc, Hp, Ho.
    repeat split.
    constructor; [exact I|].
    apply Forall_app. split; [|exact Hev].
    destruct r as [[a|]|e]; simpl; repeat constructor.
Qed.

Lemma load_templates_spec (images : list string) (s : St) :
  exists t s',
    _load_templates sys images s = (Ret (flat_map loaded_of (imread_calls t)), t, s')
    /\ map fst (imread_calls t) = images
    /\ stdout t = flat_map warning_of (imread_calls t)
    /\ Forall load_event t.
Proof. exact (load_loop_spec images [] s). Qed.

End Loading.

(** The decode attempts of the loading loop are the calls of
    [cv2.imread] on the paths, in order, each recorded with what the call
    returned. *)
Lemma load_loop_decodes {St : Type} (sys : Sys St) (images : list string) :
  forall (loaded : list Template) (s : St),
  exists t,
    load_loop sys images loaded s
    = (Ret (loaded ++ flat_map loaded_of (fst (decode_all sys images s))), t,
       snd (decode_all sys images s))
    /\ imread_calls t = fst (decode_all sys images s)
    /\ stdout t = flat_map warning_of (fst (decode_all sys images s)).
Proof.
  induction images as [|path rest IH]; intros loaded s.
  - exists []. simpl. unfold ret. rewrite app_nil_r. repeat split.
  - cbn [load_loop decode_all]. unfold bind. rewrite load_one_run.
    destruct (imread sys path s) as [r s1].
    destruct (decode_all sys rest s1) as [l s2] eqn:Erest.
    destruct r as [[a|]|e].
    + destruct (IH (loaded ++ [(path, a, (cols a, rows a))]) s1) as (t & H & Hc & Ho).
      rewrite Erest in H, Hc, Ho. simpl in H, Hc, Ho. rewrite H.
      exists ([EvImread path (Ret (Some a))] ++ t).
      rewrite imread_calls_app, stdout_app, Hc, Ho. simpl.
      rewrite <- app_assoc. repeat split.
    + destruct (IH loaded s1) as (t & H & Hc & Ho).
      rewrite Erest in H, Hc, Ho. simpl in H, Hc, Ho. rewrite H.
      exists ([EvImread path (Ret None); Print (WarnCouldNotRead path)] ++ t).
      rewrite imread_calls_app, stdout_app, Hc, Ho. repeat split.
    + destruct (IH loaded s1) as (t & H & Hc & Ho).
      rewrite Erest in H, Hc, Ho. simpl in H, Hc, Ho. rewrite H.
      exists ([EvImread path (Exc e); Print (WarnErrorReading path e)] ++ t).
      rewrite imread_calls_app, stdout_app, Hc, Ho. repeat split.
Qed.

Lemma decode_all_paths {St : Type} (sys : Sys St) (images : list string) :
  forall s : St, map fst (fst (decode_all sys images s)) = images.
Proof.
  induction images as [|path rest IH]; intro s; [reflexivity|].
  cbn [decode_all]. destruct (imread sys path s) as [r s1].
  specialize (IH s1). destruct (decode_all sys rest s1) as [l s2].
  simpl in *. rewrite IH. reflexivity.
Qed.

(** C4. Loading calls [cv2.imread] on every path once and in order, and
    never raises.  The loaded list is exactly the paths for which the call
    returned an image, each with that image and its width and height;
    every other path is skipped with one warning that names it.  When
    nothing was loaded, [find_and_click] prints the error and returns
    [False] at once: no monitor is enumerated and the loop is not entered;
    otherwise the monitors are enumerated right after the loading. *)
Theorem load_templates_skips_bad_paths {St : Type} (sys : Sys St)
    (images : list string) (s : St)
    (r : res (list Template)) (t : trace) (s' : St) :
  _load_templates sys images s = (r, t, s') ->
  imread_calls t = fst (decode_all sys images s)
  /\ map fst (imread_calls t) = images
  /\ s' = snd (decode_all sys images s)
  /\ r = Ret (flat_map loaded_of (fst (decode_all sys images s)))
  /\ stdout t = flat_map warning_of (fst (decode_all sys images s))
  /\ forall fuel threshold retry_ms timeout_ms,
       match flat_map loaded_of (fst (decode_all sys images s)) with
       | [] =>
           find_and_click sys fuel images threshold retry_ms timeout_ms s
           = (Ret (Some false),
              Print (InfoSearching images threshold retry_ms timeout_ms)
                :: t ++ [Print ErrorNoValidImages],
              s')
       | _ :: _ =>
           exists r' tloop s'',
             find_and_click sys fuel images threshold retry_ms timeout_ms s
             = (r',
                Print (InfoSearching images threshold retry_ms timeout_ms)
                  :: t ++ EvMonitors (fst (sct_monitors sys s')) :: tloop,
                s'')
       end.
Proof.
  intro Hrun.
  destruct (load_loop_decodes sys images [] s) as (t0 & H & Hc & Ho).
  unfold _load_templates in Hrun. rewrite H in Hrun. simpl in Hrun.
  injection Hrun as <- <- <-.
  split; [exact Hc | split; [rewrite Hc; apply decode_all_paths|]].
  split; [reflexivity | split; [reflexivity | split; [exact Ho|]]].
  intros fuel threshold retry_ms timeout_ms.
  unfold find_and_click, bind, print, emit, ret. simpl.
  unfold _load_templates. rewrite H. simpl.
  destruct (flat_map loaded_of (fst (decode_all sys images s))) as [|tp tps];
    [reflexivity|].
  destruct (sct_monitors sys (snd (decode_all sys images s))) as [ms s1]. simpl.
  destruct (search_loop sys fuel (monotonic sys (snd (decode_all sys images s)))
              (monitor_objects ms) (tp :: tps) threshold retry_ms timeout_ms s1)
    as [[[e|x] tloop] s''].
  - destruct e; simpl; eexists _, _, _; reflexivity.
  - eexists _, _, _. reflexivity.
Qed.

(** A corrupt file, a good one and a missing one: the good one is loaded
    with the image that [cv2.imread] returned, each of the others gets its
    warning, and the monitors are enumerated next. *)
Lemma load_templates_skips_bad_paths_witness :
  _load_templates world_found
    ["corrupt.png"%string; "accept_green.png"%string; "missing.png"%string] 0%nat
  = (Ret [green_template],
     [EvImread "corrupt.png" (Exc "corrupt data"%string);
      Print (WarnErrorReading "corrupt.png" "corrupt data"%string);
      EvImread "accept_green.png" (Ret (Some (mkArray 40 51 [1])));
      EvImread "missing.png" (Ret None);
      Print (WarnCouldNotRead "missing.png")],
     0%nat)
  /\ exists r' tloop s'',
       find_and_click world_found 3
         ["corrupt.png"%string; "accept_green.png"%string; "missing.png"%string]
         default_threshold 120 6000 0%nat
       = (r',
          Print (InfoSearching
                   ["corrupt.png"%string; "accept_green.png"%string; "missing.png"%string]
                   default_threshold 120 6000)
            :: [EvImread "corrupt.png" (Exc "corrupt data"%string);
                Print (WarnErrorReading "corrupt.png" "corrupt data"%string);
                EvImread "accept_green.png" (Ret (Some (mkArray 40 51 [1])));
                EvImread "missing.png" (Ret None);
                Print (WarnCouldNotRead "missing.png")]
            ++ EvMonitors two_monitors :: tloop,
          s'').
Proof.
  split; [reflexivity|].
  exact (proj2 (proj2 (proj2 (proj2 (proj2
           (load_templates_skips_bad_paths world_found
              ["corrupt.png"%string; "accept_green.png"%string; "missing.png"%string]
              0%nat
              (Ret [green_template])
              [EvImread "corrupt.png" (Exc "corrupt data"%string);
               Print (WarnErrorReading "corrupt.png" "corrupt data"%string);
               EvImread "accept_green.png" (Ret (Some (mkArray 40 51 [1])));
               EvImread "missing.png" (Ret None);
               Print (WarnCouldNotRead "missing.png")]
              0%nat eq_refl)))))
           3%nat default_threshold 120 6000).
Defined.

(** A missing file and a corrupt one: two warnings, nothing loaded, and
    the call gives up before any monitor is looked at. *)
Example load_templates_all_bad :
  find_and_click world_found 3 ["corrupt.png"%string; "missing.png"%string]
    default_threshold 120 6000 0%nat
  = (Ret (Some false),
     [Print (InfoSearching ["corrupt.png"%string; "missing.png"%string]
               default_threshold 120 6000);
      EvImread "corrupt.png" (Exc "corrupt data"%string);
      Print (WarnErrorReading "corrupt.png" "corrupt data"%string);
      EvImread "missing.png" (Ret None);
      Print (WarnCouldNotRead "missing.png");
      Print ErrorNoValidImages],
     0%nat).
Proof. reflexivity. Qed.

(** One good path among bad ones: the good one is loaded, with its width
    and height taken from the decoded image. *)
Example load_templates_mixed :
  _load_templates world_found
    ["corrupt.png"%string; "accept_green.png"%string; "missing.png"%string] 0%nat
  = (Ret [("accept_green.png"%string, mkArray 40 51 [1], (51, 40))],
     [EvImread "corrupt.png" (Exc "corrupt data"%string);
      Print (WarnErrorReading "corrupt.png" "corrupt data"%string);
      EvImread "accept_green.png" (Ret (Some (mkArray 40 51 [1])));
      EvImread "missing.png" (Ret None);
      Print (WarnCouldNotRead "missing.png")],
     0%nat).
Proof. reflexivity. Qed.

(** ** Comparisons on floats *)

Lemma Qgtb_true (a b : Q) : Qgtb a b = true <-> (b < a)%Q.
Proof.
  unfold Qgtb. rewrite negb_true_iff. split.
  - intro H. apply Qnot_le_lt. intro Hle. apply Qle_bool_iff in Hle. congruence.
  - intro H. destruct (Qle_bool a b) eqn:E; [|reflexivity].
    apply Qle_bool_iff in E. exfalso. exact (Qlt_not_le _ _ H E).
Qed.

Lemma Qgtb_false (a b : Q) : Qgtb a b = false <-> (a <= b)%Q.
Proof.
  unfold Qgtb. rewrite negb_false_iff. apply Qle_bool_iff.
Qed.

Lemma Qltb_true (a b : Q) : Qltb a b = true <-> (a < b)%Q.
Proof. exact (Qgtb_true b a). Qed.

Lemma Qltb_false (a b : Q) : Qltb a b = false <-> (b <= a)%Q.
Proof. exact (Qgtb_false b a). Qed.

(** ** The best-so-far comparison *)

Lemma best_val_best_of (c : Candidate) : best_val (best_of c) = cand_val c.
Proof. unfold best_of. destruct (cand_template c) as [[n a] sz]. reflexivity. Qed.

Lemma Forall_Qlt_weaken (x y : Q) (cs : list Candidate) :
  (x < y)%Q ->
  Forall (fun p => (cand_val p <= x)%Q) cs ->
  Forall (fun p => (cand_val p < y)%Q) cs.
Proof.
  intros Hxy H. eapply Forall_impl; [|exact H].
  intros p Hp. simpl in Hp. eapply Qle_lt_trans; eassumption.
Qed.

Lemma Forall_Qlt_trans (x y : Q) (cs : list Candidate) :
  (x < y)%Q ->
  Forall (fun p => (cand_val p < x)%Q) cs ->
  Forall (fun p => (cand_val p < y)%Q) cs.
Proof.
  intros Hxy H. eapply Forall_impl; [|exact H].
  intros p Hp. simpl in Hp. eapply Qlt_trans; eassumption.
Qed.

(** One more comparison preserves [Kept]. *)
Lemma Kept_step (b : Best) (cs : list Candidate) (c : Candidate) :
  Kept b cs -> Kept (keep_better b c) (cs ++ [c]).
Proof.
  intros [[Hb Hall] | (pre & c0 & post & Hcs & Hb & Hfloor & Hpre & Hpost)];
    unfold keep_better; subst b.
  - simpl best_val. destruct (Qgtb (cand_val c) (-1)) eqn:E.
    + apply Qgtb_true in E. right. exists cs, c, [].
      split; [reflexivity | split; [reflexivity | split; [exact E | split]]].
      * eapply Forall_Qlt_weaken; eassumption.
      * constructor.
    + apply Qgtb_false in E. left. split; [reflexivity|].
      apply Forall_app. split; [exact Hall | constructor; [exact E | constructor]].
  - rewrite best_val_best_of. destruct (Qgtb (cand_val c) (cand_val c0)) eqn:E.
    + apply Qgtb_true in E. right. exists (pre ++ c0 :: post), c, [].
      split; [subst cs; reflexivity | split; [reflexivity | split; [|split]]].
      * eapply Qlt_trans; eassumption.
      * apply Forall_app. split.
        -- eapply Forall_Qlt_trans; eassumption.
        -- constructor; [exact E|]. eapply Forall_Qlt_weaken; eassumption.
      * constructor.
    + apply Qgtb_false in E. right. exists pre, c0, (post ++ [c]).
      split; [subst cs; rewrite <- app_assoc; reflexivity|].
      split; [reflexivity | split; [exact Hfloor | split; [exact Hpre|]]].
      apply Forall_app. split; [exact Hpost | constructor; [exact E | constructor]].
Qed.

Lemma Kept_fold (cs : list Candidate) :
  forall (b : Best) (cs0 : list Candidate),
    Kept b cs0 -> Kept (fold_left keep_better cs b) (cs0 ++ cs).
Proof.
  induction cs as [|c cs IH]; intros b cs0 H; simpl.
  - rewrite app_nil_r. exact H.
  - replace (cs0 ++ c :: cs) with ((cs0 ++ [c]) ++ cs)
      by (rewrite <- app_assoc; reflexivity).
    apply IH, Kept_step, H.
Qed.

Lemma Kept_init : Kept init_best [].
Proof. left. split; [reflexivity | constructor]. Qed.

(** After any number of comparisons the variables are still the initial
    ones, or those of a candidate. *)
Lemma fold_keep_better_cases (cs : list Candidate) :
  fold_left keep_better cs init_best = init_best
  \/ exists c, In c cs /\ fold_left keep_better cs init_best = best_of c.
Proof.
  destruct (Kept_fold cs init_best [] Kept_init)
    as [[H _] | (pre & c & post & Hcs & Hb & _)].
  - left. exact H.
  - right. exists c. simpl in Hcs. split; [|exact Hb].
    rewrite Hcs. apply in_elt.
Qed.

(** ** The scoring pass *)

Lemma pairings_app (ms1 ms2 : list MonObj) (templates : list Template) :
  pairings (ms1 ++ ms2) templates = pairings ms1 templates ++ pairings ms2 templates.
Proof. apply flat_map_app. Qed.

Lemma update_best_keep_better (b : Best) (mon : MonObj) (t : Template) (mm : MinMax) :
  update_best b mon t mm = fold_left keep_better (candidate_of (mon, t, Ret mm)) b.
Proof.
  destruct t as [[img_name tpl] [tw th]].
  destruct mm as [[[min_val max_val] min_loc] max_loc].
  reflexivity.
Qed.

Section Scoring.

Context {St : Type} (sys : Sys St).

(** The two ways through the body of the template loop. *)
Lemma score_one_run (mon : MonObj) (frame_bgr : ndarray) (t : Template) (b : Best) (s : St) :
  score_one sys mon frame_bgr t b s =
  match match_minmax sys frame_bgr (snd (fst t)) s with
  | (Ret mm, s1) => (Ret (update_best b mon t mm), [EvMatch mon t (Ret mm)], s1)
  | (Exc e, s1) =>
      (Ret b, [EvMatch mon t (Exc e); Print (WarnMatchFailed (fst (fst t)) e)], s1)
  end.
Proof.
  destruct t as [[img_name tpl] sz].
  unfold score_one, try_catch, bind, call, print, emit, ret. simpl.
  destruct (match_minmax sys frame_bgr tpl s) as [[mm|e] s1]; reflexivity.
Qed.

Lemma scored_single (mon : MonObj) (t : Template) (r : res MinMax) :
  scored [EvMatch mon t r] = candidate_of (mon, t, r).
Proof. unfold scored. simpl. apply app_nil_r. Qed.

Lemma tpl_loop_spec (mon : MonObj) (frame_bgr : ndarray) (templates : list Template) :
  forall (b : Best) (s : St),
  exists t s',
    tpl_loop sys mon frame_bgr templates b s
    = (Ret (fold_left keep_better (scored t) b), t, s')
    /\ grab_calls t = []
    /\ map fst (match_calls t) = map (pair mon) templates
    /\ Forall (fun ev => passive ev = true) t.
Proof.
  induction templates as [|tp rest IH]; intros b s; simpl.
  - exists [], s. repeat split. constructor.
  - unfold bind. rewrite score_one_run.
    destruct (match_minmax sys frame_bgr (snd (fst tp)) s) as [[mm|e] s1].
    + destruct (IH (update_best b mon tp mm) s1) as (t & s' & H & Hg & Hm & Hp).
      rewrite H. exists ([EvMatch mon tp (Ret mm)] ++ t), s'.
      rewrite scored_app, grab_calls_app, match_calls_app, fold_left_app.
      rewrite update_best_keep_better, scored_single.
      split; [reflexivity | split; [exact Hg | split]].
      * simpl. rewrite Hm. reflexivity.
      * constructor; [reflexivity | exact Hp].
    + destruct (IH b s1) as (t & s' & H & Hg & Hm & Hp).
      rewrite H.
      exists ([EvMatch mon tp (Exc e); Print (WarnMatchFailed (fst (fst tp)) e)] ++ t), s'.
      rewrite scored_app, grab_calls_app, match_calls_app, fold_left_app.
      split; [reflexivity | split; [exact Hg | split]].
      * simpl. rewrite Hm. reflexivity.
      * constructor; [reflexivity | constructor; [reflexivity | exact Hp]].
Qed.

Lemma grabbed_no_grab_calls (t : trace) : grab_calls t = [] -> grabbed t = [].
Proof.
  induction t as [|ev t IH]; [reflexivity|].
  destruct ev; simpl; try exact IH. discriminate.
Qed.

Lemma captured_no_grab_calls (t : trace) : grab_calls t = [] -> captured t = [].
Proof. unfold captured. intros ->. reflexivity. Qed.

Lemma scan_monitor_spec (templates : list Template) (mon : MonObj) (b : Best) (s : St) :
  exists out, scan_monitor sys templates mon b s = out
              /\ pass_result out b [mon] templates.
Proof.
  unfold scan_monitor, try_catch, bind, call, print, emit, ret.
  destruct (grab_bgr sys (snd mon) s) as [[f|e] s1]; simpl.
  - destruct (tpl_loop_spec mon f templates b s1) as (t & s' & H & Hg & Hm & Hp).
    rewrite H. eexists. split; [reflexivity|].
    unfold pass_result.
    change (EvGrab mon (Ret f) :: t) with ([EvGrab mon (Ret f)] ++ t).
    rewrite scored_app, grabbed_app, match_calls_app, captured_app, map_app.
    rewrite (grabbed_no_grab_calls t Hg), (captured_no_grab_calls t Hg), Hm.
    split; [reflexivity | split; [reflexivity | split]].
    + unfold pairings. simpl. rewrite app_nil_r. reflexivity.
    + constructor; [reflexivity | exact Hp].
  - eexists. split; [reflexivity|]. simpl.
    repeat split. repeat constructor.
Qed.

Lemma mon_loop_spec (templates : list Template) (monitors : list MonObj) :
  forall (b : Best) (s : St),
  exists out, mon_loop sys monitors templates b s = out
              /\ pass_result out b monitors templates.
Proof.
  induction monitors as [|mon rest IH]; intros b s; simpl.
  - eexists. split; [reflexivity|]. simpl. repeat split. constructor.
  - unfold bind.
    destruct (scan_monitor_spec templates mon b s) as ([[r1 t1] s1] & H1 & Hr1 & Hg1 & Hm1 & Hp1).
    rewrite H1. subst r1.
    destruct (IH (fold_left keep_better (scored t1) b) s1)
      as ([[r2 t2] s2] & H2 & Hr2 & Hg2 & Hm2 & Hp2).
    rewrite H2. eexists. split; [reflexivity|]. simpl.
    rewrite scored_app, grabbed_app, match_calls_app, captured_app, fold_left_app.
    rewrite map_app, pairings_app, Hg1, Hg2, Hm1, Hm2.
    split; [exact Hr2 | split; [reflexivity | split; [reflexivity|]]].
    apply Forall_app. split; assumption.
Qed.

Lemma score_pass_spec (monitors : list MonObj) (templates : list Template) (s : St) :
  exists t s',
    score_pass sys monitors templates s
    = (Ret (fold_left keep_better (scored t) init_best), t, s')
    /\ grabbed t = monitors
    /\ map fst (match_calls t) = pairings (captured t) templates
    /\ Forall (fun ev => passive ev = true) t.
Proof.
  destruct (mon_loop_spec templates monitors init_best s)
    as ([[r t] s'] & H & Hr & Hg & Hm & Hp).
  exists t, s'. unfold score_pass. rewrite H, Hr. repeat split; assumption.
Qed.

End Scoring.

(** ** Acting, and the loop *)

Section Loop.

Context {St : Type} (sys : Sys St).

Lemma act_spec (gx gy : Z) (s : St) :
  exists ta s', act sys gx gy s = (Ret tt, ta, s') /\ act_trace gx gy ta.
Proof.
  unfold act, act_trace, try_catch, bind, call, print, emit, ret.
  destruct (moveTo sys gx gy s) as [[[]|e1] s1]; simpl.
  - destruct (click sys s1) as [[[]|e2] s2]; simpl.
    + destruct (press sys "y" (sleep sys (1 # 10) s2)) as [[[]|e3] s3]; simpl.
      * eexists _, _. split; [reflexivity|]. right. right. right. reflexivity.
      * eexists _, _. split; [reflexivity|]. right. right. left. exists e3. reflexivity.
    + eexists _, _. split; [reflexivity|]. right. left. exists e2. reflexivity.
  - eexists _, _. split; [reflexivity|]. left. exists e1. reflexivity.
Qed.

(** The two ways through the end of an iteration. *)
Lemma after_pass_spec (monitors : list MonObj) (threshold : Q) (retry_ms : Z)
    (b : Best) (s : St) :
  (exists loc size mon ta s',
      (threshold <= best_val b)%Q
      /\ best_loc b = Some loc /\ best_tpl_size b = Some size /\ best_monitor b = Some mon
      /\ after_pass sys monitors threshold retry_ms b s
         = (Ret (Some true),
            Print (LogMatch (best_image_name b) (monitor_index_from 1 monitors mon)
                     (best_val b)
                     (center (left (snd mon)) (fst loc) (fst size))
                     (center (top (snd mon)) (snd loc) (snd size))) :: ta,
            s')
      /\ act_trace (center (left (snd mon)) (fst loc) (fst size))
                   (center (top (snd mon)) (snd loc) (snd size)) ta)
  \/ (after_pass sys monitors threshold retry_ms b s
      = (Ret None, [EvSleep (max0 (inject_Z retry_ms / 1000))],
         sleep sys (max0 (inject_Z retry_ms / 1000)) s)
      /\ ((best_val b < threshold)%Q \/ best_loc b = None
          \/ best_tpl_size b = None \/ best_monitor b = None)).
Proof.
  unfold after_pass.
  destruct (Qle_bool threshold (best_val b)) eqn:E.
  2:{ right. split.
      - destruct (best_loc b), (best_tpl_size b), (best_monitor b); reflexivity.
      - left. apply Qnot_le_lt. intro H. apply Qle_bool_iff in H. congruence. }
  apply Qle_bool_iff in E.
  destruct (best_loc b) as [loc|]; [|right; split; [reflexivity | tauto]].
  destruct (best_tpl_size b) as [size|]; [|right; split; [reflexivity | tauto]].
  destruct (best_monitor b) as [mon|]; [|right; split; [reflexivity | tauto]].
  left.
  destruct (act_spec (center (left (snd mon)) (fst loc) (fst size))
                     (center (top (snd mon)) (snd loc) (snd size)) s)
    as (ta & s' & Hact & Hshape).
  exists loc, size, mon, ta, s'.
  split; [exact E | split; [reflexivity | split; [reflexivity | split; [reflexivity|]]]].
  split; [|exact Hshape].
  unfold bind, print, emit, ret. simpl. rewrite Hact. simpl.
  rewrite app_nil_r. reflexivity.
Qed.

Lemma search_loop_spec (fuel : nat) (start : Q) (monitors : list MonObj)
    (templates : list Template) (threshold : Q) (retry_ms timeout_ms : Z) :
  forall s : St,
    loop_result
      (search_loop sys fuel start monitors templates threshold retry_ms timeout_ms s)
      monitors threshold.
Proof.
  induction fuel as [|fuel IH]; intro s; simpl.
  - exists 0%nat, []. split; [constructor | split; [reflexivity|]]. left. tauto.
  - destruct (within_timeout start (monotonic sys s) timeout_ms).
    2:{ exists 0%nat, []. split; [constructor | split; [reflexivity|]]. left. tauto. }
    unfold iteration, bind.
    destruct (score_pass_spec sys monitors templates s) as (t1 & s1 & Hp & Hg & _ & Hpas).
    rewrite Hp.
    destruct (after_pass_spec monitors threshold retry_ms
                (fold_left keep_better (scored t1) init_best) s1)
      as [(loc & size & mon & ta & s2 & Hth & _ & _ & _ & Ha & Hshape) | [Ha _]];
      rewrite Ha.
    + simpl. exists 1%nat, t1.
      split; [exact Hpas | split; [simpl; rewrite app_nil_r; exact Hg|]].
      right. do 6 eexists.
      split; [reflexivity | split; [|split; [exact Hth | exact Hshape]]].
      rewrite app_nil_r. reflexivity.
    + specialize (IH (sleep sys (max0 (inject_Z retry_ms / 1000)) s1)).
      destruct (search_loop sys fuel start monitors templates threshold retry_ms
                  timeout_ms (sleep sys (max0 (inject_Z retry_ms / 1000)) s1))
        as [[r t'] s'].
      destruct IH as (k & tp & Hpas' & Hg' & Hcases).
      exists (S k), (t1 ++ EvSleep (max0 (inject_Z retry_ms / 1000)) :: tp).
      split; [|split].
      * apply Forall_app. split; [exact Hpas|]. constructor; [reflexivity | exact Hpas'].
      * rewrite grabbed_app. simpl. rewrite Hg. f_equal. exact Hg'.
      * destruct Hcases as [[Hr Ht] | (name & idx & score & gx & gy & ta & Hr & Ht & Hth & Hsh)].
        -- left. split; [exact Hr|]. subst t'. rewrite <- app_assoc. reflexivity.
        -- right. exists name, idx, score, gx, gy, ta.
           split; [exact Hr | split; [|split; [exact Hth | exact Hsh]]].
           subst t'. rewrite <- !app_assoc. reflexivity.
Qed.

End Loop.

(** ** The whole call *)

Section Call.

Context {St : Type} (sys : Sys St).

Lemma loop_result_returns (out : res loop_exit * trace * St) (monitors : list MonObj)
    (threshold : Q) :
  loop_result out monitors threshold -> exists e, fst (fst out) = Ret e.
Proof.
  destruct out as [[r t] s]. simpl.
  intros (k & tp & _ & _ & [[[Hr | Hr] _] | (n & i & v & gx & gy & ta & Hr & _)]);
    subst r; eexists; reflexivity.
Qed.

(** The two ways through [find_and_click]: give up for want of templates,
    or enumerate the monitors once and run the loop. *)
Lemma find_and_click_spec (fuel : nat) (images : list string) (threshold : Q)
    (retry_ms timeout_ms : Z) (s : St) :
  exists tl s0,
    _load_templates sys images s = (Ret (flat_map loaded_of (imread_calls tl)), tl, s0)
    /\ Forall load_event tl
    /\ ((flat_map loaded_of (imread_calls tl) = []
         /\ find_and_click sys fuel images threshold retry_ms timeout_ms s
            = (Ret (Some false),
               Print (InfoSearching images threshold retry_ms timeout_ms)
                 :: tl ++ [Print ErrorNoValidImages],
               s0))
        \/ (flat_map loaded_of (imread_calls tl) <> []
            /\ exists e tloop s',
                 search_loop sys fuel (monotonic sys s0)
                   (monitor_objects (fst (sct_monitors sys s0)))
                   (flat_map loaded_of (imread_calls tl))
                   threshold retry_ms timeout_ms (snd (sct_monitors sys s0))
                 = (Ret e, tloop, s')
                 /\ find_and_click sys fuel images threshold retry_ms timeout_ms s
                    = (Ret (exit_value e),
                       Print (InfoSearching images threshold retry_ms timeout_ms)
                         :: tl ++ EvMonitors (fst (sct_monitors sys s0))
                         :: tloop ++ exit_trace e,
                       s'))).
Proof.
  destruct (load_templates_spec sys images s) as (tl & s0 & Hl & _ & _ & Hev).
  exists tl, s0. split; [exact Hl | split; [exact Hev|]].
  unfold find_and_click, bind, print, emit, ret. simpl. rewrite Hl.
  destruct (flat_map loaded_of (imread_calls tl)) as [|tp tps] eqn:Eload.
  - left. split; reflexivity.
  - right. split; [discriminate|].
    destruct (sct_monitors sys s0) as [ms s1] eqn:Ems. simpl.
    pose proof (search_loop_spec sys fuel (monotonic sys s0) (monitor_objects ms)
                  (tp :: tps) threshold retry_ms timeout_ms s1) as Hloop.
    destruct (loop_result_returns _ _ _ Hloop) as (e & He).
    destruct (search_loop sys fuel (monotonic sys s0) (monitor_objects ms) (tp :: tps)
                threshold retry_ms timeout_ms s1) as [[r tloop] s'].
    simpl in He. subst r.
    exists e, tloop, s'. split; [reflexivity|].
    destruct e; simpl; rewrite ?app_nil_r; reflexivity.
Qed.

End Call.

(** ** The candidate a pass retains *)

(** The loop does not always retain the candidate of greatest
    similarity: [best_val] starts at -1.0 and only a strictly greater
    similarity replaces it, so a pass whose only pairing scores exactly
    -1.0 retains nothing. *)
Lemma retains_first_greatest_fails :
  ~ retains_first_greatest world_inverted [(1%nat, primary)] [green_template] 0%nat.
Proof.
  intros (b & t & s' & Hrun & Hsel).
  vm_compute in Hrun. injection Hrun as <- <- <-.
  vm_compute in Hsel. discriminate Hsel.
Qed.

(** What a pass retains, in every world.  A pass always completes; it
    tries to capture every monitor in list order and scores every template,
    in load order, on each captured frame.  Among the pairings scored, it retains the first
    one of greatest similarity, provided that similarity exceeds -1.0, and
    nothing when no similarity exceeds -1.0: the retained candidate is
    strictly above every candidate scored before it and at least equal to
    every candidate scored after it.  What is retained is the fold of the
    comparison over the sequence of scores. *)
Theorem score_pass_keeps_first_greatest_above_floor {St : Type} (sys : Sys St)
    (monitors : list MonObj) (templates : list Template) (s : St) :
  exists b t s',
    score_pass sys monitors templates s = (Ret b, t, s')
    /\ Kept b (scored t)
    /\ b = fold_left keep_better (scored t) init_best
    /\ grabbed t = monitors
    /\ map fst (match_calls t) = pairings (captured t) templates.
Proof.
  destruct (score_pass_spec sys monitors templates s) as (t & s' & H & Hg & Hm & _).
  exists (fold_left keep_better (scored t) init_best), t, s'.
  split; [exact H | split; [|split; [reflexivity | split; assumption]]].
  exact (Kept_fold (scored t) init_best [] Kept_init).
Qed.

(** C1. The code at the input where it departs from the claim and from
    its own docstring ("picks the single best match ...; if best >=
    threshold, moves mouse and clicks, then returns True").  Every capture
    is the exact inverse of the template, so every pairing scores -1.0, and
    the threshold is -1.0.  The pass scores one pairing, which is the
    greatest candidate, and retains nothing; the call sees a best
    similarity of -1.0, at least the threshold, never moves the pointer and
    returns [False]. *)
Theorem greatest_at_floor_is_dropped :
  let c := mkCandidate (1%nat, primary) green_template (-1) (100, 200) in
  let pass := score_pass world_inverted [(1%nat, primary)] [green_template] 0%nat in
  let run := find_and_click world_inverted 10 ["accept_green.png"%string] (-1) 100 300
               0%nat in
  scored (snd (fst pass)) = [c]
  /\ first_greatest (scored (snd (fst pass))) = Some c
  /\ fst (fst pass) = Ret init_best
  /\ greatest (-1) (scores_seen (snd (fst run)))
  /\ fst (fst run) = Ret (Some false)
  /\ moves (snd (fst run)) = [].
Proof.
  cbv zeta.
  split; [reflexivity | split; [reflexivity | split; [reflexivity|]]].
  split; [|split; reflexivity].
  split; [vm_compute; left; reflexivity|].
  vm_compute. repeat constructor; discriminate.
Qed.

(** Every pairing scores 1/2: the first template on the first monitor is
    retained. *)
Example score_pass_tie_keeps_first :
  fst (fst (score_pass world_half (monitor_objects two_monitors) default_templates 0%nat))
  = Ret (best_of (mkCandidate (1%nat, primary) green_template (1 # 2) (100, 200))).
Proof. reflexivity. Qed.

(** ** Scoring failures *)

(** C7 (as specified).  A template larger than the frame is not always
    skipped.  The source has no size test: whether such a pairing counts is
    left to [cv2.matchTemplate], which returns a score when the template is
    at least as large as the frame on both axes.  A 51 x 40 template on a
    50 x 30 capture is scored and retained. *)
Lemma oversize_pairing_is_skipped_fails :
  ~ oversize_pairing_is_skipped world_small (1%nat, small_area) (frame_of small_area)
      green_template init_best 0%nat.
Proof.
  intro H. destruct H as [H _].
  - left. simpl. lia.
  - vm_compute in H. discriminate H.
Qed.

(** The same capture in a whole call: the oversize template is reported
    as a match, the pointer is moved and the call returns [True]. *)
Example oversize_template_is_clicked :
  fst (fst (find_and_click world_small 3 ["accept_green.png"%string] default_threshold
              120 6000 0%nat)) = Ret (Some true)
  /\ moves (snd (fst (find_and_click world_small 3 ["accept_green.png"%string]
                        default_threshold 120 6000 0%nat))) = [(25, 20)].
Proof. split; reflexivity. Qed.

(** C7 (amended).  A pairing whose scoring raises is skipped: the
    template loop logs a warning, leaves the [best_*] variables as they
    were and goes on with the remaining templates.  A pairing for which the
    scorer returns is compared like any other, whatever the sizes of the
    template and of the frame.  A pass therefore always completes, with
    every monitor visited and every pairing of a captured monitor tried,
    and what it retains comes from the pairings that were scored. *)
Theorem scoring_failure_skips_pairing {St : Type} (sys : Sys St) :
  (forall mon frame_bgr t rest b s e s1,
      match_minmax sys frame_bgr (snd (fst t)) s = (Exc e, s1) ->
      tpl_loop sys mon frame_bgr (t :: rest) b s
      = (let '(r, tr, s') := tpl_loop sys mon frame_bgr rest b s1 in
         (r, EvMatch mon t (Exc e) :: Print (WarnMatchFailed (fst (fst t)) e) :: tr, s')))
  /\ (forall mon frame_bgr t rest b s mm s1,
        match_minmax sys frame_bgr (snd (fst t)) s = (Ret mm, s1) ->
        tpl_loop sys mon frame_bgr (t :: rest) b s
        = (let '(r, tr, s') :=
             tpl_loop sys mon frame_bgr rest (update_best b mon t mm) s1 in
           (r, EvMatch mon t (Ret mm) :: tr, s')))
  /\ (forall monitors templates s,
        exists t s',
          score_pass sys monitors templates s
          = (Ret (fold_left keep_better (scored t) init_best), t, s')
          /\ grabbed t = monitors
          /\ map fst (match_calls t) = pairings (captured t) templates).
Proof.
  split; [|split].
  - intros mon frame_bgr t rest b s e s1 Hexc.
    simpl. unfold bind. rewrite score_one_run, Hexc.
    destruct (tpl_loop sys mon frame_bgr rest b s1) as [[r tr] s']. reflexivity.
  - intros mon frame_bgr t rest b s mm s1 Hret.
    simpl. unfold bind. rewrite score_one_run, Hret.
    destruct (tpl_loop sys mon frame_bgr rest (update_best b mon t mm) s1) as [[r tr] s'].
    reflexivity.
  - intros monitors templates s.
    destruct (score_pass_spec sys monitors templates s) as (t & s' & H & Hg & Hm & _).
    exists t, s'. split; [exact H | split; assumption].
Qed.

(** A template wider than the capture but less high cannot be scored: it
    is skipped with a warning, and the template after it is scored and
    retained. *)
Lemma scoring_failure_skips_pairing_witness :
  tpl_loop world_small (1%nat, small_area) (frame_of small_area)
    [wide_template; dot_template] init_best 0%nat
  = (Ret (best_of (mkCandidate (1%nat, small_area) dot_template (1 # 2) (5, 5))),
     [EvMatch (1%nat, small_area) wide_template
        (Exc "OpenCV: assertion failed in matchTemplate"%string);
      Print (WarnMatchFailed "wide.png" "OpenCV: assertion failed in matchTemplate"%string);
      EvMatch (1%nat, small_area) dot_template (Ret (0%Q, (1 # 2)%Q, (0, 0), (5, 5)))],
     10%nat).
Proof.
  exact (proj1 (scoring_failure_skips_pairing world_small)
           (1%nat, small_area) (frame_of small_area) wide_template [dot_template]
           init_best 0%nat "OpenCV: assertion failed in matchTemplate"%string 5%nat
           eq_refl).
Defined.

(** A template that cannot be scored comes first in the list: a warning
    is logged, and the template after it is still scored and retained. *)
Example unscorable_template_is_skipped :
  tpl_loop (world score_second_fails ok ok ok) (1%nat, primary) (frame_of primary)
    [("accept_green-2.png"%string, mkArray 30 60 [2], (60, 30)); green_template]
    init_best 0%nat
  = (Ret (best_of (mkCandidate (1%nat, primary) green_template (1 # 2) (5, 5))),
     [EvMatch (1%nat, primary)
        ("accept_green-2.png"%string, mkArray 30 60 [2], (60, 30)) (Exc "bad size"%string);
      Print (WarnMatchFailed "accept_green-2.png" "bad size"%string);
      EvMatch (1%nat, primary) green_template (Ret (0%Q, (1 # 2)%Q, (0, 0), (5, 5)))],
     10%nat).
Proof. reflexivity. Qed.

(** ** The click point *)

(** [int(origin + offset + size / 2)] truncates the sum, not the
    quotient. *)
Lemma center_quot (origin offset size : Z) :
  center origin offset size = Z.quot (2 * (origin + offset) + size) 2.
Proof.
  unfold center, py_int.
  cbn [Qnum Qden Qplus Qdiv Qmult Qinv inject_Z Pos.mul].
  f_equal. lia.
Qed.

(** On a non-negative sum the two truncations agree. *)
Lemma center_nonneg (origin offset size : Z) :
  0 <= origin + offset -> 0 <= size ->
  center origin offset size = center_div_truncated origin offset size.
Proof.
  intros H1 H2. rewrite center_quot. unfold center_div_truncated.
  rewrite !Z.quot_div_nonneg by lia.
  replace (2 * (origin + offset) + size) with (size + (origin + offset) * 2) by lia.
  rewrite Z.div_add by lia. lia.
Qed.

(** C2 (as specified).  On a monitor left of the primary one the click
    point is not [left + offset.x + width/2] with the division truncated:
    for [left = -1920], [offset.x = 100] and a template 51 pixels wide the
    code moves the pointer to x = -1794, the specified point is -1795. *)
Lemma acts_at_truncated_center_fails :
  ~ acts_at_truncated_center world_found 0 0 (monitor_objects two_monitors)
      default_templates default_threshold 120 6000 0%nat.
Proof.
  intro H.
  edestruct (H (best_of (mkCandidate (2%nat, left_monitor) green_template (19 # 20) (100, 200))))
    as (line & r & ta & s2 & Heq).
  - reflexivity.
  - reflexivity.
  - reflexivity.
  - unfold default_threshold, Qle. simpl. lia.
  - vm_compute in Heq. congruence.
Qed.

(** C2 (amended).  When the candidate a pass retained has a similarity of
    at least the threshold, the iteration reports the match, calls the
    action executor on the point whose x is [left + offset.x + width/2] and
    whose y is [top + offset.y + height/2], each sum truncated toward zero
    as a whole (the quotient of twice the corner plus the size by 2), and
    the loop returns [True]. *)
Theorem accepted_match_acts_at_center {St : Type} (sys : Sys St) (fuel : nat) (start : Q)
    (monitors : list MonObj) (templates : list Template) (threshold : Q)
    (retry_ms timeout_ms : Z) (s : St) (b : Best) (t1 : trace) (s1 : St) (loc : Z * Z) :
  within_timeout start (monotonic sys s) timeout_ms = true ->
  score_pass sys monitors templates s = (Ret b, t1, s1) ->
  best_loc b = Some loc ->
  (threshold <= best_val b)%Q ->
  exists mon size ta s2,
    best_monitor b = Some mon
    /\ best_tpl_size b = Some size
    /\ search_loop sys (S fuel) start monitors templates threshold retry_ms timeout_ms s
       = (Ret (Returned true),
          t1 ++ Print (LogMatch (best_image_name b) (monitor_index_from 1 monitors mon)
                         (best_val b)
                         (Z.quot (2 * (left (snd mon) + fst loc) + fst size) 2)
                         (Z.quot (2 * (top (snd mon) + snd loc) + snd size) 2)) :: ta,
          s2)
    /\ act_trace (Z.quot (2 * (left (snd mon) + fst loc) + fst size) 2)
                 (Z.quot (2 * (top (snd mon) + snd loc) + snd size) 2) ta.
Proof.
  intros Hin Hpass Hloc Hth.
  destruct (after_pass_spec sys monitors threshold retry_ms b s1)
    as [(loc' & size & mon & ta & s2 & _ & Hloc' & Hsize & Hmon & Ha & Hshape)
       | [_ [Hlt | [Hnone | Hnone]]]].
  - rewrite Hloc in Hloc'. injection Hloc' as <-.
    rewrite !center_quot in Ha, Hshape.
    exists mon, size, ta, s2.
    split; [exact Hmon | split; [exact Hsize | split; [|exact Hshape]]].
    simpl. rewrite Hin. unfold iteration, bind. rewrite Hpass, Ha. simpl.
    rewrite app_nil_r. reflexivity.
  - exfalso. exact (Qlt_not_le _ _ Hlt Hth).
  - congruence.
  - exfalso.
    destruct (score_pass_spec sys monitors templates s) as (t & s' & H & _).
    rewrite H in Hpass. injection Hpass as Hb _ _.
    destruct (fold_keep_better_cases (scored t)) as [Hi | (c & _ & Hc)];
      rewrite Hb in *.
    + rewrite Hi in Hloc. discriminate.
    + rewrite Hc in Hnone. unfold best_of in Hnone.
      destruct (cand_template c) as [[n a] sz]. simpl in Hnone.
      destruct Hnone; discriminate.
Qed.

(** The target is on the monitor left of the primary one. *)
Lemma accepted_match_acts_at_center_witness :
  exists ta s2,
    search_loop world_found 1 0 (monitor_objects two_monitors) default_templates
      default_threshold 120 6000 0%nat
    = (Ret (Returned true),
       snd (fst (score_pass world_found (monitor_objects two_monitors)
                   default_templates 0%nat))
         ++ Print (LogMatch (Some "accept_green.png"%string) 2 (19 # 20) (-1794) 220) :: ta,
       s2)
    /\ act_trace (-1794) 220 ta.
Proof.
  destruct (accepted_match_acts_at_center world_found 0 0 (monitor_objects two_monitors)
              default_templates default_threshold 120 6000 0%nat
              (best_of (mkCandidate (2%nat, left_monitor) green_template (19 # 20) (100, 200)))
              _ _ (100, 200) eq_refl eq_refl eq_refl)
    as (mon & size & ta & s2 & Hmon & Hsize & Hrun & Hshape).
  - unfold default_threshold, Qle. simpl. lia.
  - injection Hmon as <-. injection Hsize as <-.
    exists ta, s2. split; [exact Hrun | exact Hshape].
Defined.

(** ** The shape of a whole trace *)

Lemma passive_quiet (ev : event) : passive ev = true -> quiet ev = true.
Proof. destruct ev as [[]| | | | | | | |]; simpl; congruence. Qed.

Lemma load_event_quiet (ev : event) : load_event ev -> quiet ev = true.
Proof. destruct ev as [[]| | | | | | | |]; simpl; tauto. Qed.

Lemma Forall_quiet_passive (t : trace) :
  Forall (fun ev => passive ev = true) t -> Forall (fun ev => quiet ev = true) t.
Proof. apply Forall_impl. exact passive_quiet. Qed.

Lemma Forall_quiet_load (t : trace) :
  Forall load_event t -> Forall (fun ev => quiet ev = true) t.
Proof. apply Forall_impl. exact load_event_quiet. Qed.

(** A call either ends without a match after quiet events only, or
    reports one match, of similarity at least the threshold, acts on it
    and returns [True]. *)
Lemma find_and_click_trace {St : Type} (sys : Sys St) (fuel : nat) (images : list string)
    (threshold : Q) (retry_ms timeout_ms : Z) (s : St)
    (r : res (option bool)) (t : trace) (s' : St) :
  find_and_click sys fuel images threshold retry_ms timeout_ms s = (r, t, s') ->
  exists t0,
    Forall (fun ev => quiet ev = true) t0
    /\ (((r = Ret (Some false) \/ r = Ret None) /\ t = t0)
        \/ (exists name idx score gx gy ta,
              r = Ret (Some true)
              /\ t = t0 ++ Print (LogMatch name idx score gx gy) :: ta
              /\ (threshold <= score)%Q
              /\ act_trace gx gy ta)).
Proof.
  intro Hrun.
  destruct (find_and_click_spec sys fuel images threshold retry_ms timeout_ms s)
    as (tl & s0 & _ & Hev & [[_ H] | [_ (e & tloop & s1 & Hloop & H)]]);
    rewrite H in Hrun; injection Hrun as <- <- <-.
  - eexists. split; [|left; split; [left; reflexivity | reflexivity]].
    constructor; [reflexivity|].
    apply Forall_app. split; [apply Forall_quiet_load, Hev | repeat constructor].
  - pose proof (search_loop_spec sys fuel (monotonic sys s0)
                  (monitor_objects (fst (sct_monitors sys s0)))
                  (flat_map loaded_of (imread_calls tl)) threshold retry_ms timeout_ms
                  (snd (sct_monitors sys s0))) as Hres.
    rewrite Hloop in Hres.
    destruct Hres as (k & tp & Hpas & _ & [[He Ht] | (n & i & v & gx & gy & ta & He & Ht & Hth & Hsh)]);
      subst tloop.
    + eexists. split; [|left; split; [|reflexivity]].
      * constructor; [reflexivity|].
        apply Forall_app. split; [apply Forall_quiet_load, Hev|].
        constructor; [reflexivity|].
        apply Forall_app. split; [apply Forall_quiet_passive, Hpas|].
        destruct e; repeat constructor.
      * destruct He as [He | He]; injection He as ->; simpl; tauto.
    + injection He as ->.
      exists (Print (InfoSearching images threshold retry_ms timeout_ms)
                :: tl ++ EvMonitors (fst (sct_monitors sys s0)) :: tp).
      split.
      * constructor; [reflexivity|].
        apply Forall_app. split; [apply Forall_quiet_load, Hev|].
        constructor; [reflexivity | apply Forall_quiet_passive, Hpas].
      * right. exists n, i, v, gx, gy, ta.
        split; [reflexivity | split; [|split; assumption]].
        simpl. rewrite app_nil_r, <- !app_assoc. reflexivity.
Qed.

Lemma quiet_in (t0 : trace) (ev : event) :
  Forall (fun ev => quiet ev = true) t0 -> In ev t0 -> quiet ev = true.
Proof. intros H Hin. rewrite Forall_forall in H. exact (H ev Hin). Qed.

(** ** Acting on a match *)

Ltac in_trace H :=
  repeat (simpl in H;
          match type of H with
          | In _ (_ ++ _) => apply in_app_or in H
          | _ \/ _ => destruct H as [H | H]
          | False => contradiction
          | _ = _ => first [discriminate H | injection H as H; subst]
          end).

(** C5. Once a match is reported (a candidate whose similarity is at
    least the threshold), the call returns [True], whatever the action
    executor does; and each failure of the pointer move, the click or the
    key press is logged. *)
Theorem match_found_returns_true {St : Type} (sys : Sys St) (fuel : nat)
    (images : list string) (threshold : Q) (retry_ms timeout_ms : Z) (s : St)
    (r : res (option bool)) (t : trace) (s' : St)
    (name : option string) (idx : Z) (score : Q) (gx gy : Z) :
  find_and_click sys fuel images threshold retry_ms timeout_ms s = (r, t, s') ->
  In (Print (LogMatch name idx score gx gy)) t ->
  r = Ret (Some true)
  /\ (threshold <= score)%Q
  /\ (forall x y e, In (EvMoveTo x y (Exc e)) t -> In (Print (WarnClickFailed e)) t)
  /\ (forall e, In (EvClick (Exc e)) t -> In (Print (WarnClickFailed e)) t)
  /\ (forall key e, In (EvPress key (Exc e)) t -> In (Print (WarnKeyFailed e)) t).
Proof.
  intros Hrun Hin.
  destruct (find_and_click_trace sys _ _ _ _ _ _ _ _ _ Hrun)
    as (t0 & Hq & [[_ Ht] | (n & i & v & x0 & y0 & ta & Hr & Ht & Hth & Hsh)]); subst t.
  - pose proof (quiet_in _ _ Hq Hin) as Hc. discriminate Hc.
  - split; [exact Hr|]. split.
    + apply in_app_or in Hin. destruct Hin as [Hin | [Hin | Hin]].
      * pose proof (quiet_in _ _ Hq Hin) as Hc. discriminate Hc.
      * injection Hin as _ _ <- _ _. exact Hth.
      * destruct Hsh as [(e & ->) | [(e & ->) | [(e & ->) | ->]]]; in_trace Hin.
    + split; [|split].
      * intros x y e He. apply in_app_or in He. destruct He as [He | [He | He]].
        -- pose proof (quiet_in _ _ Hq He) as Hc. discriminate Hc.
        -- discriminate He.
        -- apply in_or_app. right. right.
           destruct Hsh as [(e' & ->) | [(e' & ->) | [(e' & ->) | ->]]]; in_trace He.
           simpl. tauto.
      * intros e He. apply in_app_or in He. destruct He as [He | [He | He]].
        -- pose proof (quiet_in _ _ Hq He) as Hc. discriminate Hc.
        -- discriminate He.
        -- apply in_or_app. right. right.
           destruct Hsh as [(e' & ->) | [(e' & ->) | [(e' & ->) | ->]]]; in_trace He.
           simpl. tauto.
      * intros key e He. apply in_app_or in He. destruct He as [He | [He | He]].
        -- pose proof (quiet_in _ _ Hq He) as Hc. discriminate Hc.
        -- discriminate He.
        -- apply in_or_app. right. right.
           destruct Hsh as [(e' & ->) | [(e' & ->) | [(e' & ->) | ->]]]; in_trace He.
           simpl. tauto.
Qed.

(** The pointer cannot be moved: the call still returns [True]. *)
Lemma match_found_returns_true_witness :
  fst (fst (find_and_click world_move_fails 1 default_images default_threshold 120 6000 0%nat))
  = Ret (Some true).
Proof.
  refine (proj1 (match_found_returns_true world_move_fails 1 default_images
                   default_threshold 120 6000 0%nat _
                   (snd (fst (find_and_click world_move_fails 1 default_images
                                default_threshold 120 6000 0%nat)))
                   (snd (find_and_click world_move_fails 1 default_images
                           default_threshold 120 6000 0%nat))
                   (Some "accept_green.png"%string) 2 (19 # 20) (-1794) 220 _ _)).
  - reflexivity.
  - vm_compute. tauto.
Defined.

(** C10. When the pointer move or the click raises, no key press is
    attempted at all, and the call still returns [True]. *)
Theorem failed_click_suppresses_key {St : Type} (sys : Sys St) (fuel : nat)
    (images : list string) (threshold : Q) (retry_ms timeout_ms : Z) (s : St)
    (r : res (option bool)) (t : trace) (s' : St) :
  find_and_click sys fuel images threshold retry_ms timeout_ms s = (r, t, s') ->
  (exists x y e, In (EvMoveTo x y (Exc e)) t) \/ (exists e, In (EvClick (Exc e)) t) ->
  r = Ret (Some true) /\ Forall (fun ev => is_press ev = false) t.
Proof.
  intros Hrun Hfail.
  assert (Hqp : forall t0, Forall (fun ev => quiet ev = true) t0 ->
                           Forall (fun ev => is_press ev = false) t0).
  { apply Forall_impl. intros [[]| | | | | | | |]; simpl; congruence. }
  destruct (find_and_click_trace sys _ _ _ _ _ _ _ _ _ Hrun)
    as (t0 & Hq & [[_ Ht] | (n & i & v & x0 & y0 & ta & Hr & Ht & Hth & Hsh)]); subst t.
  - exfalso. destruct Hfail as [(x & y & e & He) | (e & He)];
      pose proof (quiet_in _ _ Hq He) as Hc; discriminate Hc.
  - split; [exact Hr|].
    apply Forall_app. split; [exact (Hqp _ Hq)|].
    constructor; [reflexivity|].
    destruct Hfail as [(x & y & e & He) | (e & He)];
      (apply in_app_or in He; destruct He as [He | [He | He]];
       [ pose proof (quiet_in _ _ Hq He) as Hc; discriminate Hc
       | discriminate He
       | destruct Hsh as [(e' & ->) | [(e' & ->) | [(e' & ->) | ->]]];
         in_trace He; repeat constructor ]).
Qed.

(** The pointer cannot be moved: no key press in the trace. *)
Lemma failed_click_suppresses_key_witness :
  Forall (fun ev => is_press ev = false)
    (snd (fst (find_and_click world_move_fails 1 default_images default_threshold
                 120 6000 0%nat))).
Proof.
  refine (proj2 (failed_click_suppresses_key world_move_fails 1 default_images
                   default_threshold 120 6000 0%nat
                   (fst (fst (find_and_click world_move_fails 1 default_images
                                default_threshold 120 6000 0%nat)))
                   _
                   (snd (find_and_click world_move_fails 1 default_images
                           default_threshold 120 6000 0%nat))
                   _ _)).
  - reflexivity.
  - left. exists (-1794), 220, "fail-safe"%string. vm_compute. tauto.
Defined.

(** ** Enumerating the monitors *)

Lemma load_trace_inert (tl : trace) :
  Forall load_event tl ->
  enumerations tl = 0%nat /\ grabbed tl = [] /\ match_calls tl = [].
Proof.
  induction 1 as [|ev tl Hev _ IH]; [repeat split|].
  destruct ev as [[]| | | | | | | |]; simpl in Hev; try contradiction; exact IH.
Qed.

Lemma passive_trace_no_enumeration (tp : trace) :
  Forall (fun ev => passive ev = true) tp -> enumerations tp = 0%nat.
Proof.
  induction 1 as [|ev tp Hev _ IH]; [reflexivity|].
  destruct ev as [[]| | | | | | | |]; simpl in Hev; try discriminate; exact IH.
Qed.

Lemma act_trace_inert (gx gy : Z) (ta : trace) :
  act_trace gx gy ta ->
  enumerations ta = 0%nat /\ grabbed ta = [] /\ match_calls ta = [].
Proof.
  intros [(e & ->) | [(e & ->) | [(e & ->) | ->]]]; repeat split.
Qed.

(** C9. In a call that loaded at least one template, the monitors are
    enumerated exactly once, after the templates are loaded and before
    anything is captured; everything captured afterwards is that one list,
    without its first element, gone through in the same order a whole
    number of times. *)
Theorem monitors_enumerated_once {St : Type} (sys : Sys St) (fuel : nat)
    (images : list string) (threshold : Q) (retry_ms timeout_ms : Z) (s : St)
    (tpl : Template) (tpls : list Template) (tl : trace) (s0 : St)
    (r : res (option bool)) (t : trace) (s' : St) :
  _load_templates sys images s = (Ret (tpl :: tpls), tl, s0) ->
  find_and_click sys fuel images threshold retry_ms timeout_ms s = (r, t, s') ->
  exists tloop k,
    t = Print (InfoSearching images threshold retry_ms timeout_ms)
          :: tl ++ EvMonitors (fst (sct_monitors sys s0)) :: tloop
    /\ enumerations t = 1%nat
    /\ grabbed (Print (InfoSearching images threshold retry_ms timeout_ms) :: tl) = []
    /\ grabbed tloop
       = List.concat (repeat (monitor_objects (fst (sct_monitors sys s0))) k).
Proof.
  intros Hload Hrun.
  destruct (find_and_click_spec sys fuel images threshold retry_ms timeout_ms s)
    as (tl' & s0' & Hl & Hev & Hcases).
  rewrite Hload in Hl. injection Hl as Hloaded <- <-.
  destruct Hcases as [[Hnil _] | [_ (e & tloop & s1 & Hloop & H)]];
    [rewrite <- Hloaded in Hnil; discriminate|].
  rewrite H in Hrun. injection Hrun as <- <- <-.
  pose proof (search_loop_spec sys fuel (monotonic sys s0)
                (monitor_objects (fst (sct_monitors sys s0)))
                (flat_map loaded_of (imread_calls tl)) threshold retry_ms timeout_ms
                (snd (sct_monitors sys s0))) as Hres.
  rewrite Hloop in Hres.
  destruct Hres as (k & tp & Hpas & Hg & Hshape).
  destruct (load_trace_inert tl Hev) as (Hen & Hgl & _).
  pose proof (passive_trace_no_enumeration tp Hpas) as Hep.
  exists (tloop ++ exit_trace e), k.
  split; [reflexivity|].
  assert (Hloop_inert : enumerations (tloop ++ exit_trace e) = 0%nat
                        /\ grabbed (tloop ++ exit_trace e) = grabbed tp).
  { destruct Hshape as [[He ->] | (n & i & v & gx & gy & ta & He & -> & _ & Hsh)].
    - rewrite enumerations_app, grabbed_app, Hep.
      destruct He as [He | He]; injection He as ->; simpl; rewrite app_nil_r; tauto.
    - injection He as ->. simpl exit_trace. rewrite app_nil_r.
      destruct (act_trace_inert gx gy ta Hsh) as (Hea & Hga & _).
      rewrite enumerations_app, grabbed_app, Hep.
      change (enumerations (Print (LogMatch n i v gx gy) :: ta)) with (enumerations ta).
      change (grabbed (Print (LogMatch n i v gx gy) :: ta)) with (grabbed ta).
      rewrite Hea, Hga, app_nil_r. tauto. }
  destruct Hloop_inert as (Hel & Hgt).
  split; [|split].
  - change (enumerations
              (Print (InfoSearching images threshold retry_ms timeout_ms)
                 :: tl ++ EvMonitors (fst (sct_monitors sys s0)) :: tloop ++ exit_trace e))
      with (enumerations (tl ++ [EvMonitors (fst (sct_monitors sys s0))]
                             ++ (tloop ++ exit_trace e))).
    rewrite enumerations_app, Hen, enumerations_app, Hel. reflexivity.
  - exact Hgl.
  - rewrite Hgt. exact Hg.
Qed.

(** Three passes at similarity 1/2 before the timeout of 300 ms: the two
    monitors are captured three times over, after one enumeration. *)
Lemma monitors_enumerated_once_witness :
  exists tloop k,
    snd (fst (find_and_click world_half 10 default_images default_threshold 100 300 0%nat))
    = Print (InfoSearching default_images default_threshold 100 300)
        :: snd (fst (_load_templates world_half default_images 0%nat))
        ++ EvMonitors two_monitors :: tloop
    /\ grabbed tloop = List.concat (repeat [(1%nat, primary); (2%nat, left_monitor)] k).
Proof.
  destruct (monitors_enumerated_once world_half 10 default_images default_threshold
              100 300 0%nat _ _ _ _
              (fst (fst (find_and_click world_half 10 default_images default_threshold
                           100 300 0%nat)))
              _
              (snd (find_and_click world_half 10 default_images default_threshold
                      100 300 0%nat))
              eq_refl eq_refl)
    as (tloop & k & Ht & _ & _ & Hg).
  exists tloop, k. split; [exact Ht | exact Hg].
Defined.

Example three_passes :
  grabbed (snd (fst (find_and_click world_half 10 default_images default_threshold
                       100 300 0%nat)))
  = List.concat (repeat [(1%nat, primary); (2%nat, left_monitor)] 3).
Proof. reflexivity. Qed.

(** ** The deadline *)

Lemma within_timeout_expired (start now : Q) (timeout_ms : Z) :
  timeout_ms <= 0 -> (start <= now)%Q -> within_timeout start now timeout_ms = false.
Proof.
  intros Ht Hmono. unfold within_timeout. apply Qltb_false.
  assert (H0 : (inject_Z timeout_ms <= 0)%Q).
  { unfold Qle. simpl. lia. }
  lra.
Qed.

Lemma load_trace_no_capture (tl : trace) :
  Forall load_event tl -> Forall (fun ev => is_capture_or_score ev = false) tl.
Proof.
  apply Forall_impl. intros [[]| | | | | | | |]; simpl; tauto.
Qed.

(** C6. The deadline is tested at the top of every iteration, before any
    capture: an iteration that starts at or after the deadline does
    nothing and ends the loop.  In particular, with a timeout of zero or
    less and a clock that does not run backwards while the monitors are
    enumerated, the call captures no screen, scores no template and
    returns [False], its last line being the not-found one (or the error
    of an empty template set). *)
Theorem expired_before_capture {St : Type} (sys : Sys St) (fuel : nat)
    (threshold : Q) (retry_ms timeout_ms : Z) :
  (forall start monitors templates s0,
      within_timeout start (monotonic sys s0) timeout_ms = false ->
      search_loop sys (S fuel) start monitors templates threshold retry_ms timeout_ms s0
      = (Ret Finished, [], s0))
  /\ (timeout_ms <= 0 ->
      (forall s0, (monotonic sys s0 <= monotonic sys (snd (sct_monitors sys s0)))%Q) ->
      forall images s,
      exists t s',
        find_and_click sys (S fuel) images threshold retry_ms timeout_ms s
        = (Ret (Some false), t, s')
        /\ Forall (fun ev => is_capture_or_score ev = false) t
        /\ exists pre,
             stdout t = pre ++ [InfoNoMatch] \/ stdout t = pre ++ [ErrorNoValidImages]).
Proof.
  assert (Hpart1 : forall start monitors templates s0,
             within_timeout start (monotonic sys s0) timeout_ms = false ->
             search_loop sys (S fuel) start monitors templates threshold retry_ms
               timeout_ms s0 = (Ret Finished, [], s0)).
  { intros start monitors templates s0 H. simpl. rewrite H. reflexivity. }
  split; [exact Hpart1|].
  intros Htimeout Hmono images s.
  destruct (find_and_click_spec sys (S fuel) images threshold retry_ms timeout_ms s)
    as (tl & s0 & _ & Hev & [[_ H] | [_ (e & tloop & s1 & Hloop & H)]]).
  - eexists _, _. split; [exact H|]. split.
    + constructor; [reflexivity|]. apply Forall_app.
      split; [apply load_trace_no_capture, Hev | repeat constructor].
    + exists (InfoSearching images threshold retry_ms timeout_ms :: stdout tl).
      right. simpl. rewrite stdout_app. reflexivity.
  - rewrite Hpart1 in Hloop
      by (apply within_timeout_expired; [exact Htimeout | apply Hmono]).
    injection Hloop as <- <- <-.
    eexists _, _. split; [exact H|]. split.
    + constructor; [reflexivity|]. apply Forall_app.
      split; [apply load_trace_no_capture, Hev | repeat constructor].
    + exists (InfoSearching images threshold retry_ms timeout_ms :: stdout tl).
      left. simpl. rewrite stdout_app. reflexivity.
Qed.

(** A timeout of zero: the templates are loaded, the monitors enumerated,
    and the call gives up without looking at the screen. *)
Lemma expired_before_capture_witness :
  exists t s',
    find_and_click world_found 1 default_images default_threshold 120 0 0%nat
    = (Ret (Some false), t, s')
    /\ Forall (fun ev => is_capture_or_score ev = false) t.
Proof.
  destruct (proj2 (expired_before_capture world_found 0 default_threshold 120 0))
    with (images := default_images) (s := 0%nat)
    as (t & s' & Hrun & Hno & _).
  - lia.
  - intro s0. apply Qle_refl.
  - exists t, s'. split; [exact Hrun | exact Hno].
Defined.

Example zero_timeout_run :
  find_and_click world_found 1 default_images default_threshold 120 0 0%nat
  = (Ret (Some false),
     [Print (InfoSearching default_images default_threshold 120 0);
      EvImread "accept_green.png" (Ret (Some (mkArray 40 51 [1])));
      EvImread "accept_green-2.png" (Ret (Some (mkArray 30 60 [2])));
      EvMonitors two_monitors;
      Print InfoNoMatch],
     0%nat).
Proof. reflexivity. Qed.

(** ** The not-found result *)

(** C8 (as specified).  The not-found result does not carry the best
    similarity seen.  Two searches that expire after seeing a best
    similarity of 1/2 and of 1/4 return the same value and print the same
    lines. *)
Lemma not_found_carries_best_score_fails : ~ not_found_carries_best_score.
Proof.
  intros (decode & H).
  destruct (find_and_click world_half 5 default_images default_threshold 100 10 0%nat)
    as [[r1 t1] s1] eqn:E1.
  destruct (find_and_click world_quarter 5 default_images default_threshold 100 10 0%nat)
    as [[r2 t2] s2] eqn:E2.
  vm_compute in E1. injection E1 as <- <- <-.
  vm_compute in E2. injection E2 as <- <- <-.
  assert (H1 := H world_half 5%nat default_images default_threshold 100 10 0%nat
                  _ _ _ (1 # 2)%Q eq_refl eq_refl).
  assert (H2 := H world_quarter 5%nat default_images default_threshold 100 10 0%nat
                  _ _ _ (1 # 4)%Q eq_refl eq_refl).
  assert (G1 : (decode (Some false,
                        [InfoSearching default_images default_threshold 100 10;
                         InfoNoMatch]) == 1 # 2)%Q).
  { apply H1. split; [left; reflexivity|].
    repeat constructor; unfold Qle; simpl; lia. }
  assert (G2 : (decode (Some false,
                        [InfoSearching default_images default_threshold 100 10;
                         InfoNoMatch]) == 1 # 4)%Q).
  { apply H2. split; [left; reflexivity|].
    repeat constructor; unfold Qle; simpl; lia. }
  rewrite G1 in G2. discriminate G2.
Qed.

Lemma quiet_line_no_score (t0 : trace) :
  Forall (fun ev => quiet ev = true) t0 ->
  Forall (fun l => reported_score l = None) (stdout t0).
Proof.
  induction 1 as [|ev t0 Hev _ IH]; [constructor|].
  destruct ev as [[]| | | | | | | |]; simpl in Hev; try discriminate; simpl;
    try exact IH; constructor; try reflexivity; exact IH.
Qed.

(** C8 (amended).  A call that does not find the target returns the bare
    value [False]; its last line is the fixed not-found message (or the
    error of an empty template set), and none of the lines it prints
    reports a similarity. *)
Theorem not_found_reports_no_score {St : Type} (sys : Sys St) (fuel : nat)
    (images : list string) (threshold : Q) (retry_ms timeout_ms : Z) (s : St)
    (v : option bool) (t : trace) (s' : St) :
  find_and_click sys fuel images threshold retry_ms timeout_ms s = (Ret v, t, s') ->
  v = Some false ->
  Forall (fun l => reported_score l = None) (stdout t)
  /\ exists pre,
       stdout t = pre ++ [InfoNoMatch] \/ stdout t = pre ++ [ErrorNoValidImages].
Proof.
  intros Hrun Hv. subst v. split.
  - destruct (find_and_click_trace sys _ _ _ _ _ _ _ _ _ Hrun)
      as (t0 & Hq & [[_ Ht] | (n & i & sc & gx & gy & ta & Hr & _)]).
    + subst t. apply quiet_line_no_score, Hq.
    + discriminate Hr.
  - destruct (find_and_click_spec sys fuel images threshold retry_ms timeout_ms s)
      as (tl & s0 & _ & Hev & [[_ H] | [_ (e & tloop & s1 & Hloop & H)]]);
      rewrite H in Hrun.
    + injection Hrun as <- <-.
      exists (InfoSearching images threshold retry_ms timeout_ms :: stdout tl).
      right. simpl. rewrite stdout_app. reflexivity.
    + injection Hrun as Hval <- <-.
      pose proof (search_loop_spec sys fuel (monotonic sys s0)
                    (monitor_objects (fst (sct_monitors sys s0)))
                    (flat_map loaded_of (imread_calls tl)) threshold retry_ms timeout_ms
                    (snd (sct_monitors sys s0))) as Hres.
      rewrite Hloop in Hres.
      destruct Hres as (k & tp & _ & _ & [[He _] | (n & i & sc & gx & gy & ta & He & _)]).
      * destruct He as [He | He]; injection He as ->; [|discriminate Hval].
        exists (InfoSearching images threshold retry_ms timeout_ms
                  :: stdout tl ++ stdout (EvMonitors (fst (sct_monitors sys s0)) :: tloop)).
        left. simpl exit_trace. simpl stdout at 1.
        rewrite stdout_app.
        change (EvMonitors (fst (sct_monitors sys s0)) :: tloop ++ [Print InfoNoMatch])
          with ((EvMonitors (fst (sct_monitors sys s0)) :: tloop) ++ [Print InfoNoMatch]).
        rewrite stdout_app. simpl. rewrite <- !app_assoc. reflexivity.
      * injection He as ->. discriminate Hval.
Qed.

(** The search of [world_half] expires: every printed line is without a
    similarity. *)
Lemma not_found_reports_no_score_witness :
  Forall (fun l => reported_score l = None)
    (stdout (snd (fst (find_and_click world_half 5 default_images default_threshold
                         100 10 0%nat)))).
Proof.
  refine (proj1 (not_found_reports_no_score world_half 5 default_images default_threshold
                   100 10 0%nat (Some false) _
                   (snd (find_and_click world_half 5 default_images default_threshold
                           100 10 0%nat))
                   _ _)).
  - reflexivity.
  - reflexivity.
Defined.

(** * Further properties *)

(** ** Locating a point: range, composition, uniqueness *)

Lemma py_index_middle {A : Type} (pre : list A) (a : A) (post : list A) :
  py_index (pre ++ a :: post) (Z.of_nat (List.length pre)) = Ret a.
Proof.
  unfold py_index.
  assert (Hlen : Z.of_nat (List.length (pre ++ a :: post))
                 = Z.of_nat (List.length pre) + 1 + Z.of_nat (List.length post)).
  { rewrite length_app. simpl List.length. lia. }
  rewrite Hlen.
  destruct (Z.of_nat (List.length pre) <? 0) eqn:Eneg; [apply Z.ltb_lt in Eneg; lia|].
  replace ((0 <=? Z.of_nat (List.length pre))
           && (Z.of_nat (List.length pre)
               <? Z.of_nat (List.length pre) + 1 + Z.of_nat (List.length post)))
    with true
    by (symmetry; apply andb_true_iff; rewrite Z.leb_le, Z.ltb_lt; lia).
  rewrite Nat2Z.id, nth_error_app2 by lia.
  rewrite Nat.sub_diag. reflexivity.
Qed.

(** X1. The index [point_monitor_index] returns is between 0 and the
    number of monitors; when it is not 0, indexing the list at it minus one
    succeeds and gives a monitor that contains the point and has a
    positive width and height. *)
Theorem point_monitor_index_in_range (x y : Z) (monitors : list Monitor) :
  0 <= point_monitor_index x y monitors <= Z.of_nat (List.length monitors)
  /\ (point_monitor_index x y monitors = 0
      \/ exists m,
           py_index monitors (point_monitor_index x y monitors - 1) = Ret m
           /\ in_rect m x y /\ 0 < width m /\ 0 < height m).
Proof.
  unfold point_monitor_index.
  destruct (point_monitor_index_from_spec x y monitors 1)
    as [[H0 _] | (pre & m & post & Heq & Hidx & Hin & _)].
  - rewrite H0. split; [lia | left; reflexivity].
  - rewrite Hidx. split.
    + rewrite Heq, length_app. simpl List.length. lia.
    + right. exists m.
      replace (1 + Z.of_nat (List.length pre) - 1) with (Z.of_nat (List.length pre)) by lia.
      rewrite Heq. split; [apply py_index_middle|].
      split; [exact Hin|]. unfold in_rect in Hin. lia.
Qed.

Lemma point_monitor_index_from_shift (x y : Z) (monitors : list Monitor) :
  forall idx,
    point_monitor_index_from idx x y monitors
    = if point_monitor_index_from 1 x y monitors =? 0 then 0
      else point_monitor_index_from 1 x y monitors + (idx - 1).
Proof.
  intro idx.
  destruct (point_monitor_index_from_spec x y monitors idx)
    as [[H0 Hall] | (pre & m & post & Heq & Hidx & Hin & Hpre)];
    destruct (point_monitor_index_from_spec x y monitors 1)
      as [[H1 Hall1] | (pre1 & m1 & post1 & Heq1 & Hidx1 & Hin1 & Hpre1)].
  - rewrite H0, H1. reflexivity.
  - exfalso. rewrite Heq1 in Hall. apply Forall_app in Hall. destruct Hall as [_ Hall].
    inversion Hall; contradiction.
  - exfalso. rewrite Heq in Hall1. apply Forall_app in Hall1. destruct Hall1 as [_ Hall1].
    inversion Hall1; contradiction.
  - assert (Hlen : List.length pre = List.length pre1).
    { destruct (Nat.lt_trichotomy (List.length pre) (List.length pre1)) as [Hlt | [He | Hgt]];
        [exfalso | exact He | exfalso].
      - assert (Hm : In m pre1).
        { assert (Hn : nth_error (pre1 ++ m1 :: post1) (List.length pre) = Some m).
          { rewrite <- Heq1, Heq, nth_error_app2, Nat.sub_diag by lia. reflexivity. }
          rewrite nth_error_app1 in Hn by lia. eapply nth_error_In, Hn. }
        rewrite Forall_forall in Hpre1. exact (Hpre1 m Hm Hin).
      - assert (Hm : In m1 pre).
        { assert (Hn : nth_error (pre ++ m :: post) (List.length pre1) = Some m1).
          { rewrite <- Heq, Heq1, nth_error_app2, Nat.sub_diag by lia. reflexivity. }
          rewrite nth_error_app1 in Hn by lia. eapply nth_error_In, Hn. }
        rewrite Forall_forall in Hpre. exact (Hpre m1 Hm Hin1). }
    rewrite Hidx, Hidx1, Hlen.
    destruct (1 + Z.of_nat (List.length pre1) =? 0) eqn:E; [apply Z.eqb_eq in E; lia | lia].
Qed.

(** X2. Locating a point in two lists put end to end: the index in the
    first list when it has a monitor containing the point; otherwise the
    index in the second list shifted by the length of the first, and 0
    when neither has one. *)
Theorem point_monitor_index_app (x y : Z) (ms1 ms2 : list Monitor) :
  point_monitor_index x y (ms1 ++ ms2)
  = if point_monitor_index x y ms1 =? 0 then
      if point_monitor_index x y ms2 =? 0 then 0
      else Z.of_nat (List.length ms1) + point_monitor_index x y ms2
    else point_monitor_index x y ms1.
Proof.
  unfold point_monitor_index.
  assert (Hgen : forall idx,
             point_monitor_index_from idx x y (ms1 ++ ms2)
             = if point_monitor_index_from 1 x y ms1 =? 0 then
                 point_monitor_index_from (idx + Z.of_nat (List.length ms1)) x y ms2
               else point_monitor_index_from 1 x y ms1 + (idx - 1)).
  { induction ms1 as [|m rest IH]; intro idx.
    - replace (idx + Z.of_nat (@List.length Monitor [])) with idx by (simpl; lia).
      reflexivity.
    - cbn [app point_monitor_index_from]. destruct (contains_point m x y) eqn:E.
      + change (1 =? 0) with false. cbv iota. lia.
      + rewrite IH. rewrite (point_monitor_index_from_shift x y rest (1 + 1)).
        destruct (point_monitor_index_from 1 x y rest =? 0) eqn:E0.
        * change (0 =? 0) with true. cbv iota. f_equal.
          change (List.length (m :: rest)) with (S (List.length rest)). lia.
        * apply Z.eqb_neq in E0.
          assert (Hpos : 0 <= point_monitor_index_from 1 x y rest).
          { destruct (point_monitor_index_from_spec x y rest 1)
              as [[H0 _] | (pre & m' & post & _ & Hidx & _)]; lia. }
          destruct (point_monitor_index_from 1 x y rest + (1 + 1 - 1) =? 0) eqn:E1;
            [apply Z.eqb_eq in E1; lia | lia]. }
  rewrite Hgen.
  destruct (point_monitor_index_from 1 x y ms1 =? 0); [|lia].
  rewrite (point_monitor_index_from_shift x y ms2 (1 + Z.of_nat (List.length ms1))).
  destruct (point_monitor_index_from 1 x y ms2 =? 0); lia.
Qed.

Lemma disjoint_excludes (m1 m2 : Monitor) (x y : Z) :
  disjoint m1 m2 -> in_rect m2 x y -> contains_point m1 x y = false.
Proof.
  intros Hd H2. destruct (contains_point m1 x y) eqn:E; [|reflexivity].
  exfalso. apply contains_point_spec in E. exact (Hd x y (conj E H2)).
Qed.

(** X3. When no two monitors of the list share a point, the index
    returned for a point is the position of the one monitor that contains
    it, wherever it stands in the list. *)
Theorem point_monitor_index_unique (x y : Z) (pre : list Monitor) (m : Monitor)
    (post : list Monitor) :
  ForallOrdPairs disjoint (pre ++ m :: post) ->
  in_rect m x y ->
  point_monitor_index x y (pre ++ m :: post) = Z.of_nat (List.length pre) + 1.
Proof.
  intros Hd Hin. unfold point_monitor_index.
  assert (Hgen : forall idx,
             point_monitor_index_from idx x y (pre ++ m :: post)
             = idx + Z.of_nat (List.length pre)).
  { induction pre as [|p pre IH]; intro idx.
    - cbn [app point_monitor_index_from].
      apply contains_point_spec in Hin. rewrite Hin. simpl. lia.
    - cbn [app point_monitor_index_from].
      inversion Hd as [|a l Hfa Hrest]; subst.
      assert (Hp : disjoint p m).
      { rewrite Forall_forall in Hfa. apply Hfa, in_elt. }
      rewrite (disjoint_excludes p m x y Hp Hin), (IH Hrest).
      change (List.length (p :: pre)) with (S (List.length pre)). lia. }
  rewrite Hgen. lia.
Qed.

(** A point of the right-hand one of two monitors side by side. *)
Lemma point_monitor_index_unique_witness :
  point_monitor_index 2000 10 [mkMonitor 0 0 1920 1080; mkMonitor 1920 0 1920 1080] = 2.
Proof.
  apply (point_monitor_index_unique 2000 10 [mkMonitor 0 0 1920 1080]
           (mkMonitor 1920 0 1920 1080) []).
  - constructor; [|constructor; [constructor | constructor]].
    constructor; [|constructor].
    intros x y. unfold in_rect. simpl. lia.
  - unfold in_rect. simpl. lia.
Defined.

(** ** The overlay windows *)

(** X4. [Hud._update] never fails on its list indexing.  It moves the
    HUD exactly when some monitor contains the pointer (the origin, when the
    pointer cannot be read): then to the top right corner, 20 pixels in, of
    the first such monitor, whose number the label shows; otherwise the
    label shows monitor 0 and the window stays where it is. *)
Theorem hud_update_follows_pointer (pos : res (Z * Z)) (ww wh : Z) (monitors : list Monitor) :
  let x := fst (pointer_or_origin pos) in
  let y := snd (pointer_or_origin pos) in
  (hud_update pos ww wh monitors = Ret ((x, y, 0), None)
   /\ Forall (fun m => ~ in_rect m x y) monitors)
  \/ (exists pre m post,
        monitors = pre ++ m :: post
        /\ in_rect m x y
        /\ Forall (fun p => ~ in_rect p x y) pre
        /\ hud_update pos ww wh monitors
           = Ret ((x, y, Z.of_nat (List.length pre) + 1),
                  Some (ww, wh, left m + width m - ww - 20, top m + 20))).
Proof.
  unfold hud_update. destruct (pointer_or_origin pos) as [x y]. simpl fst. simpl snd.
  unfold point_monitor_index.
  destruct (point_monitor_index_from_spec x y monitors 1)
    as [[H0 Hall] | (pre & m & post & Heq & Hidx & Hin & Hpre)].
  - left. rewrite H0. simpl. split; [reflexivity | exact Hall].
  - right. exists pre, m, post.
    split; [exact Heq | split; [exact Hin | split; [exact Hpre|]]].
    rewrite Hidx.
    replace ((1 <=? 1 + Z.of_nat (List.length pre))
             && (1 + Z.of_nat (List.length pre) <=? Z.of_nat (List.length monitors)))
      with true.
    2:{ symmetry. apply andb_true_iff. rewrite !Z.leb_le.
        rewrite Heq, length_app. simpl List.length. lia. }
    replace (1 + Z.of_nat (List.length pre) - 1) with (Z.of_nat (List.length pre)) by lia.
    rewrite Heq at 1. rewrite py_index_middle. unfold top_right.
    replace (1 + Z.of_nat (List.length pre)) with (Z.of_nat (List.length pre) + 1) by lia.
    reflexivity.
Qed.

(** X5. [show_toast] on an empty monitor list raises [IndexError].  On
    a non-empty list it places the toast at the top right corner, 20 pixels
    in, of the first monitor that contains the pointer, and of the first
    monitor of the list when none does. *)
Theorem toast_geometry_monitor (pos : res (Z * Z)) (ww wh : Z) (monitors : list Monitor) :
  let x := fst (pointer_or_origin pos) in
  let y := snd (pointer_or_origin pos) in
  match monitors with
  | [] => toast_geometry pos ww wh monitors = Exc "list index out of range"%string
  | first :: _ =>
      exists m,
        toast_geometry pos ww wh monitors
        = Ret (ww, wh, left m + width m - ww - 20, top m + 20)
        /\ ((Forall (fun p => ~ in_rect p x y) monitors /\ m = first)
            \/ (exists pre post,
                  monitors = pre ++ m :: post
                  /\ in_rect m x y
                  /\ Forall (fun p => ~ in_rect p x y) pre))
  end.
Proof.
  unfold toast_geometry. destruct (pointer_or_origin pos) as [x y]. simpl fst. simpl snd.
  destruct monitors as [|first rest]; [reflexivity|].
  unfold point_monitor_index.
  destruct (point_monitor_index_from_spec x y (first :: rest) 1)
    as [[H0 Hall] | (pre & m & post & Heq & Hidx & Hin & Hpre)].
  - exists first. rewrite H0. split; [reflexivity | left; split; [exact Hall | reflexivity]].
  - exists m. rewrite Hidx. split; [|right; exists pre, post; tauto].
    replace ((1 <=? 1 + Z.of_nat (List.length pre))
             && (1 + Z.of_nat (List.length pre) <=? Z.of_nat (List.length (first :: rest))))
      with true.
    2:{ symmetry. apply andb_true_iff. rewrite !Z.leb_le.
        rewrite Heq, length_app. simpl List.length. lia. }
    replace (1 + Z.of_nat (List.length pre) - 1) with (Z.of_nat (List.length pre)) by lia.
    rewrite Heq, py_index_middle. reflexivity.
Qed.

Example hud_and_toast_off_screen :
  let monitors := [mkMonitor 0 0 1920 1080; mkMonitor 1920 0 1280 1024] in
  hud_update (Ret (2000, 1050)) 200 30 monitors = Ret ((2000, 1050, 0), None)
  /\ toast_geometry (Ret (2000, 1050)) 200 30 monitors = Ret (200, 30, 1700, 20)
  /\ hud_update (Ret (2000, 500)) 200 30 monitors
     = Ret ((2000, 500, 2), Some (200, 30, 2980, 20))
  /\ hud_update (Exc "no display"%string) 200 30 monitors
     = Ret ((0, 0, 1), Some (200, 30, 1700, 20)).
Proof. repeat split. Qed.

(** ** The structure of a run *)

Section Iterations.

Context {St : Type} (sys : Sys St).

Lemma tpl_loop_events (mon : MonObj) (frame_bgr : ndarray) (templates : list Template) :
  forall (b : Best) (s : St),
    Forall (fun ev => pass_event ev = true)
      (snd (fst (tpl_loop sys mon frame_bgr templates b s))).
Proof.
  induction templates as [|tp rest IH]; intros b s; simpl.
  - constructor.
  - unfold bind. rewrite score_one_run.
    destruct (match_minmax sys frame_bgr (snd (fst tp)) s) as [[mm|e] s1].
    + specialize (IH (update_best b mon tp mm) s1).
      destruct (tpl_loop sys mon frame_bgr rest (update_best b mon tp mm) s1) as [[r t] s'].
      simpl in *. constructor; [reflexivity | exact IH].
    + specialize (IH b s1).
      destruct (tpl_loop sys mon frame_bgr rest b s1) as [[r t] s'].
      simpl in *. constructor; [reflexivity | constructor; [reflexivity | exact IH]].
Qed.

Lemma scan_monitor_events (templates : list Template) (mon : MonObj) (b : Best) (s : St) :
  Forall (fun ev => pass_event ev = true)
    (snd (fst (scan_monitor sys templates mon b s))).
Proof.
  unfold scan_monitor, try_catch, bind, call, print, emit, ret.
  destruct (grab_bgr sys (snd mon) s) as [[f|e] s1]; simpl.
  - pose proof (tpl_loop_events mon f templates b s1) as H.
    destruct (tpl_loop sys mon f templates b s1) as [[r t] s'].
    simpl in *. constructor; [reflexivity | exact H].
  - repeat constructor.
Qed.

Lemma mon_loop_events (templates : list Template) (monitors : list MonObj) :
  forall (b : Best) (s : St),
    Forall (fun ev => pass_event ev = true)
      (snd (fst (mon_loop sys monitors templates b s))).
Proof.
  induction monitors as [|mon rest IH]; intros b s; simpl.
  - constructor.
  - unfold bind.
    pose proof (scan_monitor_events templates mon b s) as H1.
    destruct (scan_monitor_spec sys templates mon b s) as ([[r1 t1] s1] & E1 & Hr1 & _).
    rewrite E1 in *. subst r1.
    specialize (IH (fold_left keep_better (scored t1) b) s1).
    destruct (mon_loop sys rest templates (fold_left keep_better (scored t1) b) s1)
      as [[r2 t2] s2].
    simpl in *. apply Forall_app. split; assumption.
Qed.

(** A pass returns the fold of the comparison over what it scored, and
    its trace is that of a pass. *)
Lemma score_pass_trace (monitors : list MonObj) (templates : list Template) (s : St) :
  exists t s',
    score_pass sys monitors templates s
    = (Ret (fold_left keep_better (scored t) init_best), t, s')
    /\ pass_trace monitors templates t.
Proof.
  destruct (score_pass_spec sys monitors templates s) as (t & s' & H & Hg & Hm & _).
  exists t, s'. split; [exact H|].
  split; [|split; assumption].
  pose proof (mon_loop_events templates monitors init_best s) as Hev.
  unfold score_pass in H. rewrite H in Hev. exact Hev.
Qed.

(** A candidate above -1.0 that was scored is dominated by the one
    kept. *)
Lemma Kept_dominates (b : Best) (cs : list Candidate) (c : Candidate) :
  Kept b cs -> In c cs -> (-1 < cand_val c)%Q ->
  exists pre c0 post,
    cs = pre ++ c0 :: post /\ b = best_of c0 /\ (-1 < cand_val c0)%Q
    /\ Forall (fun p => (cand_val p < cand_val c0)%Q) pre
    /\ Forall (fun q => (cand_val q <= cand_val c0)%Q) post
    /\ (cand_val c <= cand_val c0)%Q.
Proof.
  intros [[_ Hall] | (pre & c0 & post & Hcs & Hb & Hfloor & Hpre & Hpost)] Hin Hc.
  - exfalso. rewrite Forall_forall in Hall. specialize (Hall c Hin). simpl in Hall.
    exact (Qlt_not_le _ _ Hc Hall).
  - exists pre, c0, post.
    split; [exact Hcs | split; [exact Hb | split; [exact Hfloor|]]].
    split; [exact Hpre | split; [exact Hpost|]].
    rewrite Hcs in Hin. apply in_app_or in Hin. destruct Hin as [Hin | [Hin | Hin]].
    + rewrite Forall_forall in Hpre. apply Qlt_le_weak. exact (Hpre c Hin).
    + subst c0. apply Qle_refl.
    + rewrite Forall_forall in Hpost. exact (Hpost c Hin).
Qed.

Lemma best_of_fields (c : Candidate) :
  best_loc (best_of c) = Some (cand_loc c)
  /\ best_tpl_size (best_of c) = Some (snd (cand_template c))
  /\ best_monitor (best_of c) = Some (cand_monitor c)
  /\ best_image_name (best_of c) = Some (fst (fst (cand_template c))).
Proof. unfold best_of. destruct (cand_template c) as [[n a] sz]. repeat split. Qed.

Lemma match_line_best_of (monitors : list MonObj) (c : Candidate) :
  LogMatch (best_image_name (best_of c))
    (monitor_index_from 1 monitors (cand_monitor c)) (best_val (best_of c))
    (center (left (snd (cand_monitor c))) (fst (cand_loc c)) (fst (snd (cand_template c))))
    (center (top (snd (cand_monitor c))) (snd (cand_loc c)) (snd (snd (cand_template c))))
  = match_line monitors c.
Proof.
  unfold match_line, click_point, best_of.
  destruct (cand_template c) as [[n a] [tw th]]. reflexivity.
Qed.

(** The two ways through an iteration, told by what the pass scored. *)
Lemma iteration_spec (monitors : list MonObj) (templates : list Template)
    (threshold : Q) (retry_ms : Z) (s : St) :
  exists p s1,
    pass_trace monitors templates p
    /\ snd (score_pass sys monitors templates s) = s1
    /\ ((~ accepting threshold p
         /\ iteration sys monitors templates threshold retry_ms s
            = (Ret None, p ++ [EvSleep (retry_sleep retry_ms)],
               sleep sys (retry_sleep retry_ms) s1))
        \/ (exists pre c post ta s2,
              scored p = pre ++ c :: post
              /\ Forall (fun q => (cand_val q < cand_val c)%Q) pre
              /\ Forall (fun q => (cand_val q <= cand_val c)%Q) post
              /\ (-1 < cand_val c)%Q
              /\ (threshold <= cand_val c)%Q
              /\ act_trace (fst (click_point c)) (snd (click_point c)) ta
              /\ iteration sys monitors templates threshold retry_ms s
                 = (Ret (Some true), p ++ Print (match_line monitors c) :: ta, s2))).
Proof.
  destruct (score_pass_trace monitors templates s) as (p & s1 & Hp & Htr).
  exists p, s1. split; [exact Htr|].
  split; [rewrite Hp; reflexivity|].
  pose proof (Kept_fold (scored p) init_best [] Kept_init) as HK. simpl in HK.
  unfold iteration, bind. rewrite Hp.
  destruct (after_pass_spec sys monitors threshold retry_ms
              (fold_left keep_better (scored p) init_best) s1)
    as [(loc & size & mon & ta & s2 & Hth & Hloc & Hsize & Hmon & Ha & Hshape)
       | [Ha Hwhy]].
  - right.
    destruct HK as [[Hb _] | (pre & c & post & Hcs & Hb & Hfloor & Hpre & Hpost)].
    { rewrite Hb in Hloc. discriminate. }
    rewrite Hb in *.
    destruct (best_of_fields c) as (Fl & Fs & Fm & Fn).
    rewrite Fl in Hloc. rewrite Fs in Hsize. rewrite Fm in Hmon.
    injection Hloc as <-. injection Hsize as <-. injection Hmon as <-.
    rewrite best_val_best_of in Hth.
    rewrite match_line_best_of in Ha.
    exists pre, c, post, ta, s2.
    split; [exact Hcs | split; [exact Hpre | split; [exact Hpost|]]].
    split; [exact Hfloor | split; [exact Hth|]].
    split.
    + unfold click_point. destruct (cand_template c) as [[n a] [tw th]]. exact Hshape.
    + rewrite Ha. reflexivity.
  - left. rewrite Ha. split; [|reflexivity].
    intros (c & Hin & Hth & Hfloor).
    destruct (Kept_dominates _ _ c HK Hin Hfloor)
      as (pre & c0 & post & _ & Hb & _ & _ & _ & Hle).
    rewrite Hb in Hwhy. destruct (best_of_fields c0) as (Fl & Fs & Fm & _).
    rewrite best_val_best_of, Fl, Fs, Fm in Hwhy.
    destruct Hwhy as [Hlt | [H | [H | H]]]; try discriminate.
    apply (Qlt_not_le _ _ Hlt). eapply Qle_trans; eassumption.
Qed.

Lemma search_loop_iterations (fuel : nat) (start : Q) (monitors : list MonObj)
    (templates : list Template) (threshold : Q) (retry_ms timeout_ms : Z) :
  forall s : St,
    loop_iterations
      (search_loop sys fuel start monitors templates threshold retry_ms timeout_ms s)
      fuel monitors templates threshold retry_ms.
Proof.
  induction fuel as [|fuel IH]; intro s; simpl.
  - exists []. split; [constructor | split; [constructor|]].
    right. left. repeat split.
  - destruct (within_timeout start (monotonic sys s) timeout_ms).
    2:{ exists []. split; [constructor | split; [constructor|]].
        left. split; [reflexivity | split; [simpl; lia | reflexivity]]. }
    unfold bind.
    destruct (iteration_spec monitors templates threshold retry_ms s)
      as (p & s1 & Htr & _ & [[Hrej Hit]
                         | (pre & c & post & ta & s2 & Hcs & Hpre & Hpost & Hfl & Hth & Hsh & Hit)]);
      rewrite Hit.
    + specialize (IH (sleep sys (retry_sleep retry_ms) s1)).
      destruct (search_loop sys fuel start monitors templates threshold retry_ms
                  timeout_ms (sleep sys (retry_sleep retry_ms) s1)) as [[r t'] s'].
      destruct IH as (failed & Hall & Hnone & Hcases).
      exists (p :: failed).
      split; [constructor; assumption | split; [constructor; assumption|]].
      unfold failed_iterations. simpl List.concat. fold (failed_iterations retry_ms failed).
      simpl List.length.
      destruct Hcases as [(Hr & Hlen & Ht) | [(Hr & Hlen & Ht)
                         | (last & pre & c & post & ta & Hr & Hlen & Hrest)]].
      * left. split; [exact Hr | split; [lia | rewrite Ht; reflexivity]].
      * right. left. split; [exact Hr | split; [lia | rewrite Ht; reflexivity]].
      * right. right. exists last, pre, c, post, ta.
        split; [exact Hr | split; [lia|]].
        destruct Hrest as (H1 & H2 & H3 & H4 & H5 & H6 & H7 & Ht).
        repeat (split; [assumption|]).
        rewrite Ht, <- !app_assoc. reflexivity.
    + exists []. split; [constructor | split; [constructor|]].
      right. right. exists p, pre, c, post, ta.
      split; [reflexivity | split; [simpl; lia|]].
      repeat (split; [assumption|]).
      simpl. rewrite app_nil_r. reflexivity.
Qed.

End Iterations.

(** ** Capture failures *)

(** X6. A monitor whose capture raises is skipped: a warning is logged,
    none of the templates is scored on it, the [best_*] variables stay as
    they were, and the pass goes on with the remaining monitors. *)
Theorem capture_failure_skips_monitor {St : Type} (sys : Sys St)
    (templates : list Template) (mon : MonObj) (rest : list MonObj) (b : Best)
    (s : St) (e : exn) (s1 : St) :
  grab_bgr sys (snd mon) s = (Exc e, s1) ->
  mon_loop sys (mon :: rest) templates b s
  = (let '(r, tr, s') := mon_loop sys rest templates b s1 in
     (r, EvGrab mon (Exc e) :: Print (WarnGrabFailed (snd mon) e) :: tr, s')).
Proof.
  intro Hexc. simpl.
  unfold bind at 1. unfold scan_monitor, try_catch, bind, call, print, emit, ret.
  rewrite Hexc. simpl.
  destruct (mon_loop sys rest templates b s1) as [[r tr] s']. reflexivity.
Qed.

(** The primary monitor is dark: the target is still found on the other
    one. *)
Lemma capture_failure_skips_monitor_witness :
  mon_loop world_primary_dark (monitor_objects two_monitors) [green_template]
    init_best 0%nat
  = (Ret (best_of (mkCandidate (2%nat, left_monitor) green_template (19 # 20) (100, 200))),
     [EvGrab (1%nat, primary) (Exc "grab failed"%string);
      Print (WarnGrabFailed primary "grab failed"%string);
      EvGrab (2%nat, left_monitor) (Ret (frame_of left_monitor));
      EvMatch (2%nat, left_monitor) green_template
        (Ret (0%Q, (19 # 20)%Q, (0, 0), (100, 200)))],
     25%nat).
Proof.
  exact (capture_failure_skips_monitor world_primary_dark [green_template]
           (1%nat, primary) [(2%nat, left_monitor)] init_best 0%nat
           "grab failed"%string 10%nat eq_refl).
Defined.

(** ** What an iteration accepts *)

Lemma scored_act_trace (gx gy : Z) (ta : trace) (l : logline) :
  act_trace gx gy ta -> scored (Print l :: ta) = [].
Proof.
  intro H. destruct (act_trace_inert gx gy ta H) as (_ & _ & Hm).
  unfold scored. change (match_calls (Print l :: ta)) with (match_calls ta).
  rewrite Hm. reflexivity.
Qed.

Lemma retry_in_range_millis (retry_ms : Z) :
  0 <= retry_ms <= 4294967295 -> retry_in_range retry_ms.
Proof.
  intro H. unfold retry_in_range. split; [|lia].
  apply Z.lt_le_trans with 0; [reflexivity | lia].
Qed.

(** X7. For a retry interval in the range where the retry sleep
    returns, an iteration ends the search with [True] exactly when some
    pairing it scored has a similarity of at least the threshold and above
    -1.0; otherwise it sleeps and falls through to the next iteration. *)
Theorem iteration_accepts_iff {St : Type} (sys : Sys St) (monitors : list MonObj)
    (templates : list Template) (threshold : Q) (retry_ms : Z) (s : St)
    (r : res (option bool)) (t : trace) (s' : St) :
  retry_in_range retry_ms ->
  iteration sys monitors templates threshold retry_ms s = (r, t, s') ->
  (r = Ret (Some true) /\ accepting threshold t)
  \/ (r = Ret None /\ ~ accepting threshold t
      /\ exists p, t = p ++ [EvSleep (retry_sleep retry_ms)]).
Proof.
  intros _ Hrun.
  destruct (iteration_spec sys monitors templates threshold retry_ms s)
    as (p & s1 & _ & _ & [[Hrej Hit]
                        | (pre & c & post & ta & s2 & Hcs & _ & _ & Hfl & Hth & Hsh & Hit)]);
    rewrite Hit in Hrun; injection Hrun as <- <- <-.
  - right. split; [reflexivity | split; [|exists p; reflexivity]].
    intros (c & Hin & Hc). apply Hrej. exists c. split; [|exact Hc].
    rewrite scored_app in Hin. simpl in Hin. rewrite app_nil_r in Hin. exact Hin.
  - left. split; [reflexivity|].
    exists c. split; [|split; assumption].
    rewrite scored_app, Hcs. apply in_or_app. left. apply in_elt.
Qed.

(** The target is on the left monitor: the iteration accepts. *)
Lemma iteration_accepts_iff_witness :
  accepting default_threshold
    (snd (fst (iteration world_found (monitor_objects two_monitors) default_templates
                 default_threshold 120 0%nat))).
Proof.
  destruct (iteration_accepts_iff world_found (monitor_objects two_monitors)
              default_templates default_threshold 120 0%nat
              (fst (fst (iteration world_found (monitor_objects two_monitors)
                           default_templates default_threshold 120 0%nat)))
              _
              (snd (iteration world_found (monitor_objects two_monitors)
                      default_templates default_threshold 120 0%nat))
              (retry_in_range_millis 120 ltac:(lia))
              eq_refl)
    as [[_ H] | [H _]].
  - exact H.
  - vm_compute in H. discriminate H.
Defined.

(** ** The structure of a call *)

(** A call that loaded a template is one enumeration followed by the
    iterations of the loop. *)
Lemma find_and_click_iterations {St : Type} (sys : Sys St) (fuel : nat)
    (images : list string) (threshold : Q) (retry_ms timeout_ms : Z) (s : St)
    (r : res (option bool)) (t : trace) (s' : St) :
  find_and_click sys fuel images threshold retry_ms timeout_ms s = (r, t, s') ->
  exists tl s0,
    _load_templates sys images s = (Ret (flat_map loaded_of (imread_calls tl)), tl, s0)
    /\ Forall load_event tl
    /\ ((flat_map loaded_of (imread_calls tl) = []
         /\ r = Ret (Some false)
         /\ t = Print (InfoSearching images threshold retry_ms timeout_ms)
                  :: tl ++ [Print ErrorNoValidImages])
        \/ (flat_map loaded_of (imread_calls tl) <> []
            /\ exists e tloop,
                 r = Ret (exit_value e)
                 /\ t = Print (InfoSearching images threshold retry_ms timeout_ms)
                          :: tl ++ EvMonitors (fst (sct_monitors sys s0))
                          :: tloop ++ exit_trace e
                 /\ loop_iterations (Ret e, tloop, s') fuel
                      (monitor_objects (fst (sct_monitors sys s0)))
                      (flat_map loaded_of (imread_calls tl)) threshold retry_ms)).
Proof.
  intro Hrun.
  destruct (find_and_click_spec sys fuel images threshold retry_ms timeout_ms s)
    as (tl & s0 & Hl & Hev & [[Hnil H] | [Hne (e & tloop & s1 & Hloop & H)]]);
    rewrite H in Hrun; exists tl, s0; (split; [exact Hl | split; [exact Hev|]]).
  - injection Hrun as <- <- <-. left. repeat split. exact Hnil.
  - injection Hrun as <- <- <-. right. split; [exact Hne|].
    exists e, tloop. split; [reflexivity | split; [reflexivity|]].
    pose proof (search_loop_iterations sys fuel (monotonic sys s0)
                  (monitor_objects (fst (sct_monitors sys s0)))
                  (flat_map loaded_of (imread_calls tl)) threshold retry_ms timeout_ms
                  (snd (sct_monitors sys s0))) as Hit.
    rewrite Hloop in Hit. exact Hit.
Qed.

(** X8. A call that returns [True] consists of the loading of the
    templates, one enumeration of the monitors, fewer than [fuel]
    iterations in which no scored pairing reached the threshold, each
    followed by the retry sleep, and a last pass.  The line that reports
    the match and the point acted on are those of the first candidate of
    greatest similarity of that last pass, and its similarity is at least
    the threshold. *)
Theorem found_after_failed_iterations {St : Type} (sys : Sys St) (fuel : nat)
    (images : list string) (threshold : Q) (retry_ms timeout_ms : Z) (s : St)
    (t : trace) (s' : St) :
  find_and_click sys fuel images threshold retry_ms timeout_ms s
  = (Ret (Some true), t, s') ->
  exists tl ms loaded failed last pre c post ta,
    t = Print (InfoSearching images threshold retry_ms timeout_ms)
          :: tl ++ EvMonitors ms
          :: failed_iterations retry_ms failed
          ++ last ++ Print (match_line (monitor_objects ms) c) :: ta
    /\ Forall load_event tl
    /\ (List.length failed < fuel)%nat
    /\ Forall (pass_trace (monitor_objects ms) loaded) failed
    /\ Forall (fun p => ~ accepting threshold p) failed
    /\ pass_trace (monitor_objects ms) loaded last
    /\ scored last = pre ++ c :: post
    /\ Forall (fun p => (cand_val p < cand_val c)%Q) pre
    /\ Forall (fun q => (cand_val q <= cand_val c)%Q) post
    /\ (threshold <= cand_val c)%Q
    /\ act_trace (fst (click_point c)) (snd (click_point c)) ta.
Proof.
  intro Hrun.
  destruct (find_and_click_iterations sys _ _ _ _ _ _ _ _ _ Hrun)
    as (tl & s0 & _ & Hev & [(_ & Hr & _) | (_ & e & tloop & Hr & Ht & Hloop)]);
    [discriminate Hr|].
  destruct Hloop as (failed & Hall & Hnone & [(He & _) | [(He & _)
                    | (last & pre & c & post & ta & He & Hlen & Hlast & Hcs & Hpre & Hpost
                       & _ & Hth & Hsh & Htl)]]);
    try (injection He as ->; discriminate Hr).
  injection He as ->.
  exists tl, (fst (sct_monitors sys s0)), (flat_map loaded_of (imread_calls tl)),
    failed, last, pre, c, post, ta.
  split; [|repeat (split; [assumption|]); assumption].
  rewrite Ht, Htl. simpl exit_trace. rewrite app_nil_r. reflexivity.
Qed.

(** The target is found by the first pass, on the left monitor. *)
Lemma found_after_failed_iterations_witness :
  exists tl ms failed last c ta,
    snd (fst (find_and_click world_found 3 default_images default_threshold 120 6000 0%nat))
    = Print (InfoSearching default_images default_threshold 120 6000)
        :: tl ++ EvMonitors ms
        :: failed_iterations 120 failed
        ++ last ++ Print (match_line (monitor_objects ms) c) :: ta
    /\ (default_threshold <= cand_val c)%Q.
Proof.
  destruct (found_after_failed_iterations world_found 3 default_images default_threshold
              120 6000 0%nat _ _ eq_refl)
    as (tl & ms & loaded & failed & last & pre & c & post & ta & Ht & _ & _ & _ & _ & _
        & _ & _ & _ & Hth & _).
  exists tl, ms, failed, last, c, ta. split; [exact Ht | exact Hth].
Defined.

(** X9. A call that returns [False] after loading a template made at
    most [fuel] passes, each followed by the retry sleep, and in none of
    them did a scored pairing reach the threshold (with a similarity above
    -1.0); its trace ends with the not-found line. *)
Theorem not_found_means_no_pass_accepted {St : Type} (sys : Sys St) (fuel : nat)
    (images : list string) (threshold : Q) (retry_ms timeout_ms : Z) (s : St)
    (tpl : Template) (tpls : list Template) (tl : trace) (s0 : St)
    (t : trace) (s' : St) :
  _load_templates sys images s = (Ret (tpl :: tpls), tl, s0) ->
  find_and_click sys fuel images threshold retry_ms timeout_ms s
  = (Ret (Some false), t, s') ->
  exists ms failed,
    t = Print (InfoSearching images threshold retry_ms timeout_ms)
          :: tl ++ EvMonitors ms
          :: failed_iterations retry_ms failed ++ [Print InfoNoMatch]
    /\ (List.length failed <= fuel)%nat
    /\ Forall (pass_trace (monitor_objects ms) (tpl :: tpls)) failed
    /\ Forall (fun p => ~ accepting threshold p) failed.
Proof.
  intros Hload Hrun.
  destruct (find_and_click_iterations sys _ _ _ _ _ _ _ _ _ Hrun)
    as (tl' & s0' & Hl & _ & Hcases).
  rewrite Hload in Hl. injection Hl as Hloaded <- <-.
  destruct Hcases as [(Hnil & _) | (_ & e & tloop & Hr & Ht & Hloop)];
    [rewrite <- Hloaded in Hnil; discriminate|].
  rewrite <- Hloaded in Hloop.
  destruct Hloop as (failed & Hall & Hnone & [(He & Hlen & Htl) | [(He & _)
                    | (last & pre & c & post & ta & He & _)]]);
    injection He as ->; try discriminate Hr.
  exists (fst (sct_monitors sys s0)), failed.
  split; [|split; [exact Hlen | split; assumption]].
  rewrite Ht, Htl. reflexivity.
Qed.

(** Three passes at similarity 1/2 within 300 ms. *)
Lemma not_found_means_no_pass_accepted_witness :
  exists ms failed,
    snd (fst (find_and_click world_half 10 default_images default_threshold 100 300 0%nat))
    = Print (InfoSearching default_images default_threshold 100 300)
        :: snd (fst (_load_templates world_half default_images 0%nat))
        ++ EvMonitors ms :: failed_iterations 100 failed ++ [Print InfoNoMatch]
    /\ Forall (fun p => ~ accepting default_threshold p) failed.
Proof.
  destruct (not_found_means_no_pass_accepted world_half 10 default_images
              default_threshold 100 300 0%nat _ _ _ _ _ _ eq_refl eq_refl)
    as (ms & failed & Ht & _ & _ & Hnone).
  exists ms, failed. split; [exact Ht | exact Hnone].
Defined.

(** ** Sleeping *)

Lemma sleeps_app (t1 t2 : trace) : sleeps (t1 ++ t2) = sleeps t1 ++ sleeps t2.
Proof. apply flat_map_app. Qed.

Lemma sleeps_pass (p : trace) :
  Forall (fun ev => pass_event ev = true) p -> sleeps p = [].
Proof.
  induction 1 as [|ev p Hev _ IH]; [reflexivity|].
  destruct ev as [[]| | | | | | | |]; simpl in Hev; try discriminate; exact IH.
Qed.

Lemma sleeps_load (tl : trace) : Forall load_event tl -> sleeps tl = [].
Proof.
  induction 1 as [|ev tl Hev _ IH]; [reflexivity|].
  destruct ev as [[]| | | | | | | |]; simpl in Hev; try contradiction; exact IH.
Qed.

Lemma sleeps_failed_iterations (monitors : list MonObj) (templates : list Template)
    (retry_ms : Z) (failed : list trace) :
  Forall (pass_trace monitors templates) failed ->
  sleeps (failed_iterations retry_ms failed)
  = repeat (retry_sleep retry_ms) (List.length failed).
Proof.
  induction 1 as [|p failed Hp _ IH]; [reflexivity|].
  unfold failed_iterations. simpl List.concat. fold (failed_iterations retry_ms failed).
  rewrite !sleeps_app, IH. destruct Hp as (Hev & _).
  rewrite (sleeps_pass p Hev). reflexivity.
Qed.

Lemma retry_sleep_nonneg (retry_ms : Z) : (0 <= retry_sleep retry_ms)%Q.
Proof.
  unfold retry_sleep, max0.
  destruct (Qltb 0 (inject_Z retry_ms / 1000)) eqn:E.
  - apply Qltb_true in E. apply Qlt_le_weak, E.
  - apply Qle_refl.
Qed.

(** X10. The durations a call sleeps are, in order, the retry sleep
    once per iteration that found nothing (at most [fuel] times) and, when
    the click went through, the settle delay of 1/10 s.  The retry sleep is
    [retry_ms / 1000] clamped below at zero, so [time.sleep] is never given
    a negative duration. *)
Theorem sleeps_are_clamped {St : Type} (sys : Sys St) (fuel : nat)
    (images : list string) (threshold : Q) (retry_ms timeout_ms : Z) (s : St)
    (r : res (option bool)) (t : trace) (s' : St) :
  find_and_click sys fuel images threshold retry_ms timeout_ms s = (r, t, s') ->
  (exists k settle,
      sleeps t = repeat (retry_sleep retry_ms) k ++ settle
      /\ (k <= fuel)%nat
      /\ (settle = [] \/ (settle = [(1 # 10)%Q] /\ r = Ret (Some true))))
  /\ (0 <= retry_sleep retry_ms)%Q
  /\ (retry_ms <= 0 -> retry_sleep retry_ms = 0%Q)
  /\ Forall (fun q => (0 <= q)%Q) (sleeps t).
Proof.
  intro Hrun.
  assert (Hshape : exists k settle,
             sleeps t = repeat (retry_sleep retry_ms) k ++ settle
             /\ (k <= fuel)%nat
             /\ (settle = [] \/ (settle = [(1 # 10)%Q] /\ r = Ret (Some true)))).
  { destruct (find_and_click_iterations sys _ _ _ _ _ _ _ _ _ Hrun)
      as (tl & s0 & _ & Hev & [(_ & Hr & Ht) | (_ & e & tloop & Hr & Ht & Hloop)]).
    - exists 0%nat, []. subst t. simpl sleeps. rewrite sleeps_app, (sleeps_load tl Hev).
      split; [reflexivity | split; [lia | left; reflexivity]].
    - subst t. simpl sleeps. rewrite sleeps_app, (sleeps_load tl Hev).
      simpl app. change (sleeps (EvMonitors (fst (sct_monitors sys s0)) :: tloop ++ exit_trace e))
        with (sleeps (tloop ++ exit_trace e)).
      rewrite sleeps_app.
      destruct Hloop as (failed & Hall & _ & [(He & Hlen & Htl) | [(He & Hlen & Htl)
                        | (last & pre & c & post & ta & He & Hlen & Hlast & _ & _ & _
                           & _ & _ & Hsh & Htl)]]); injection He as ->; subst tloop.
      + exists (List.length failed), [].
        rewrite (sleeps_failed_iterations _ _ _ _ Hall).
        split; [reflexivity | split; [exact Hlen | left; reflexivity]].
      + exists (List.length failed), [].
        rewrite (sleeps_failed_iterations _ _ _ _ Hall).
        split; [reflexivity | split; [lia | left; reflexivity]].
      + rewrite !sleeps_app, (sleeps_failed_iterations _ _ _ _ Hall).
        destruct Hlast as (Hlev & _). rewrite (sleeps_pass last Hlev).
        simpl exit_trace. simpl in Hr. subst r.
        destruct Hsh as [(e & ->) | [(e & ->) | [(e & ->) | ->]]]; simpl;
          rewrite ?app_nil_r.
        * exists (List.length failed), []. rewrite app_nil_r.
          split; [reflexivity | split; [lia | tauto]].
        * exists (List.length failed), []. rewrite app_nil_r.
          split; [reflexivity | split; [lia | tauto]].
        * exists (List.length failed), [(1 # 10)%Q].
          split; [reflexivity | split; [lia | right; tauto]].
        * exists (List.length failed), [(1 # 10)%Q].
          split; [reflexivity | split; [lia | right; tauto]]. }
  split; [exact Hshape | split; [apply retry_sleep_nonneg | split]].
  - intro Hneg. unfold retry_sleep, max0.
    destruct (Qltb 0 (inject_Z retry_ms / 1000)) eqn:E; [|reflexivity].
    exfalso. apply Qltb_true in E.
    unfold Qlt, Qdiv, Qmult, Qinv, inject_Z in E. simpl in E. lia.
  - destruct Hshape as (k & settle & -> & _ & Hs).
    apply Forall_app. split.
    + apply Forall_forall. intros q Hq. apply repeat_spec in Hq. subst q.
      apply retry_sleep_nonneg.
    + destruct Hs as [-> | [-> _]]; repeat constructor. unfold Qle. simpl. lia.
Qed.

(** A negative retry interval: three passes in 50 ms of captures and
    scorings, each followed by a sleep of zero. *)
Lemma sleeps_are_clamped_witness :
  retry_sleep (-5) = 0%Q
  /\ Forall (fun q => (0 <= q)%Q)
       (sleeps (snd (fst (find_and_click world_half 10 default_images default_threshold
                            (-5) 50 0%nat)))).
Proof.
  destruct (sleeps_are_clamped world_half 10 default_images default_threshold (-5) 50
              0%nat _ _ _ eq_refl) as (_ & _ & Hneg & Hall).
  split; [apply Hneg; lia | exact Hall].
Defined.

(** ** Acting once *)

Lemma moves_app (t1 t2 : trace) : moves (t1 ++ t2) = moves t1 ++ moves t2.
Proof. apply flat_map_app. Qed.

Lemma presses_app (t1 t2 : trace) : presses (t1 ++ t2) = presses t1 ++ presses t2.
Proof. apply flat_map_app. Qed.

Lemma clicks_app (t1 t2 : trace) : clicks (t1 ++ t2) = (clicks t1 + clicks t2)%nat.
Proof. unfold clicks. rewrite filter_app. apply length_app. Qed.

Lemma quiet_trace_no_action (t0 : trace) :
  Forall (fun ev => quiet ev = true) t0 ->
  moves t0 = [] /\ clicks t0 = 0%nat /\ presses t0 = [].
Proof.
  induction 1 as [|ev t0 Hev _ IH]; [repeat split|].
  destruct ev as [[]| | | | | | | |]; simpl in Hev; try discriminate; exact IH.
Qed.

(** X11. A call that does not return [True] never touches the pointer
    or the keyboard.  A call that returns [True] moves the pointer exactly
    once, to the point its match line reports; it clicks at most once and
    presses at most one key, the key ["y"], and only after a click. *)
Theorem acts_at_most_once {St : Type} (sys : Sys St) (fuel : nat)
    (images : list string) (threshold : Q) (retry_ms timeout_ms : Z) (s : St)
    (r : res (option bool)) (t : trace) (s' : St) :
  find_and_click sys fuel images threshold retry_ms timeout_ms s = (r, t, s') ->
  ((r = Ret (Some false) \/ r = Ret None)
   /\ moves t = [] /\ clicks t = 0%nat /\ presses t = []
   /\ Forall (fun l => reported_score l = None) (stdout t))
  \/ (exists name idx score gx gy,
        r = Ret (Some true)
        /\ In (Print (LogMatch name idx score gx gy)) t
        /\ moves t = [(gx, gy)]
        /\ ((clicks t = 0%nat /\ presses t = [])
            \/ (clicks t = 1%nat /\ (presses t = [] \/ presses t = ["y"%string])))).
Proof.
  intro Hrun.
  destruct (find_and_click_trace sys _ _ _ _ _ _ _ _ _ Hrun)
    as (t0 & Hq & [[Hr Ht] | (name & idx & score & gx & gy & ta & Hr & Ht & _ & Hsh)]);
    subst t; destruct (quiet_trace_no_action t0 Hq) as (Hm & Hc & Hp).
  - left. split; [exact Hr | split; [exact Hm | split; [exact Hc | split; [exact Hp|]]]].
    apply quiet_line_no_score, Hq.
  - right. exists name, idx, score, gx, gy.
    split; [exact Hr | split; [apply in_or_app; right; left; reflexivity|]].
    rewrite moves_app, clicks_app, presses_app, Hm, Hc, Hp.
    destruct Hsh as [(e & ->) | [(e & ->) | [(e & ->) | ->]]]; simpl; tauto.
Qed.

(** The pointer cannot be moved: one move attempted, no click, no key. *)
Lemma acts_at_most_once_witness :
  moves (snd (fst (find_and_click world_move_fails 1 default_images default_threshold
                     120 6000 0%nat)))
  = [(-1794, 220)].
Proof.
  destruct (acts_at_most_once world_move_fails 1 default_images default_threshold
              120 6000 0%nat _ _ _ eq_refl)
    as [(_ & Hm & _) | (name & idx & score & gx & gy & _ & _ & Hm & _)].
  - vm_compute in Hm. discriminate Hm.
  - vm_compute in Hm. vm_compute. exact eq_refl.
Defined.

(** ** The monitor a match is reported on *)

Lemma combine_seq_bounds (k : nat) (rest : list Monitor) (mon : MonObj) :
  In mon (combine (seq k (List.length rest)) rest) ->
  (k <= fst mon < k + List.length rest)%nat.
Proof.
  intro H. destruct mon as [a m]. apply in_combine_l in H. apply in_seq in H.
  simpl. lia.
Qed.

Lemma monitor_index_from_numbered (rest : list Monitor) :
  forall (k : nat) (idx : Z) (mon : MonObj),
    In mon (combine (seq k (List.length rest)) rest) ->
    monitor_index_from idx (combine (seq k (List.length rest)) rest) mon
    = idx + Z.of_nat (fst mon - k)
    /\ nth_error rest (fst mon - k) = Some (snd mon).
Proof.
  induction rest as [|m rest IH]; intros k idx mon Hin; [contradiction|].
  simpl in Hin. simpl List.length. simpl seq. simpl combine.
  cbn [monitor_index_from fst]. destruct Hin as [<- | Hin].
  - simpl fst. rewrite Nat.eqb_refl, Nat.sub_diag. simpl. split; [lia | reflexivity].
  - pose proof (combine_seq_bounds (S k) rest mon Hin) as Hb.
    destruct (Nat.eqb k (fst mon)) eqn:E; [apply Nat.eqb_eq in E; lia|].
    destruct (IH (S k) (idx + 1) mon Hin) as (Hi & Hn).
    rewrite Hi. replace (fst mon - k)%nat with (S (fst mon - S k)) by lia.
    simpl nth_error. split; [lia | exact Hn].
Qed.

Lemma monitor_objects_numbered (ms : list Monitor) (mon : MonObj) :
  In mon (monitor_objects ms) ->
  monitor_index_from 1 (monitor_objects ms) mon = Z.of_nat (fst mon)
  /\ (1 <= fst mon <= List.length (tl ms))%nat
  /\ nth_error (tl ms) (fst mon - 1) = Some (snd mon).
Proof.
  unfold monitor_objects. destruct ms as [|m0 rest]; [contradiction|].
  simpl List.length. simpl seq. simpl combine. simpl tl. intro Hin.
  pose proof (combine_seq_bounds 1 rest mon Hin) as Hb.
  destruct (monitor_index_from_numbered rest 1 1 mon Hin) as (Hi & Hn).
  split; [rewrite Hi; lia | split; [lia | exact Hn]].
Qed.

Lemma captured_grabbed (t : trace) (mon : MonObj) :
  In mon (captured t) -> In mon (grabbed t) /\ exists f, In (EvGrab mon (Ret f)) t.
Proof.
  induction t as [|ev t IH]; [contradiction|].
  destruct ev as [| | |m r| | | | |];
    try (intro H; destruct (IH H) as (Hg & f & Hf);
         split; [exact Hg | exists f; right; exact Hf]).
  destruct r as [f|e].
  - intros [<- | H].
    + split; [left; reflexivity | exists f; left; reflexivity].
    + destruct (IH H) as (Hg & f' & Hf).
      split; [right; exact Hg | exists f'; right; exact Hf].
  - intro H. destruct (IH H) as (Hg & f' & Hf).
    split; [right; exact Hg | exists f'; right; exact Hf].
Qed.

Lemma scored_match_call (t : trace) (c : Candidate) :
  In c (scored t) -> In (cand_monitor c, cand_template c) (map fst (match_calls t)).
Proof.
  unfold scored. intro H. apply in_flat_map in H. destruct H as ([[mon tp] r] & Hin & Hc).
  apply in_map_iff. exists (mon, tp, r). split; [|exact Hin].
  destruct r as [[[[mn mx] lmn] lmx]|e]; simpl in Hc; [|contradiction].
  destruct Hc as [<- | []]. reflexivity.
Qed.

Lemma pairings_In (monitors : list MonObj) (templates : list Template)
    (mon : MonObj) (tp : Template) :
  In (mon, tp) (pairings monitors templates) -> In mon monitors /\ In tp templates.
Proof.
  unfold pairings. intro H. apply in_flat_map in H. destruct H as (m & Hm & Hp).
  apply in_map_iff in Hp. destruct Hp as (tp' & Heq & Htp).
  injection Heq as -> ->. split; assumption.
Qed.

(** A candidate scored in a pass comes from a monitor of the list that
    was captured, and from a template of the list. *)
Lemma pass_candidate_origin (monitors : list MonObj) (templates : list Template)
    (p : trace) (c : Candidate) :
  pass_trace monitors templates p -> In c (scored p) ->
  In (cand_monitor c) monitors /\ In (cand_template c) templates
  /\ exists f, In (EvGrab (cand_monitor c) (Ret f)) p.
Proof.
  intros (_ & Hg & Hm) Hin.
  apply scored_match_call in Hin. rewrite Hm in Hin.
  apply pairings_In in Hin. destruct Hin as (Hmon & Htp).
  destruct (captured_grabbed p _ Hmon) as (Hgr & f & Hf).
  rewrite Hg in Hgr. split; [exact Hgr | split; [exact Htp | exists f; exact Hf]].
Qed.

Lemma py_index_nth {A : Type} (l : list A) (n : nat) (a : A) :
  nth_error l n = Some a -> py_index l (Z.of_nat n) = Ret a.
Proof.
  intro H.
  assert (Hlt : (n < List.length l)%nat) by (apply nth_error_Some; congruence).
  unfold py_index.
  destruct (Z.of_nat n <? 0) eqn:Eneg; [apply Z.ltb_lt in Eneg; lia|].
  replace ((0 <=? Z.of_nat n) && (Z.of_nat n <? Z.of_nat (List.length l))) with true
    by (symmetry; apply andb_true_iff; rewrite Z.leb_le, Z.ltb_lt; lia).
  rewrite Nat2Z.id, H. reflexivity.
Qed.

Lemma scored_match_event (t : trace) (c : Candidate) :
  In c (scored t) ->
  exists min_val min_loc,
    In (EvMatch (cand_monitor c) (cand_template c)
          (Ret (min_val, cand_val c, min_loc, cand_loc c))) t.
Proof.
  induction t as [|ev t IH]; [contradiction|].
  destruct ev as [| | | |mon tp r| | | |];
    try (intro H; destruct (IH H) as (mn & lmn & Hin); exists mn, lmn; right; exact Hin).
  destruct r as [[[[mn mx] lmn] lmx]|e].
  - unfold scored. simpl. intros [<- | H].
    + exists mn, lmn. left. reflexivity.
    + destruct (IH H) as (mn' & lmn' & Hin). exists mn', lmn'. right. exact Hin.
  - intro H. destruct (IH H) as (mn' & lmn' & Hin). exists mn', lmn'. right. exact Hin.
Qed.

(** X12. The monitor number in a match line is never 0: it is the
    1-based position, in the enumeration without the virtual bounding box,
    of a monitor that was captured and on which a loaded template was
    scored with the similarity the line reports; the point reported is the
    center computed from the offset of that scoring. *)
Theorem match_line_monitor_number {St : Type} (sys : Sys St) (fuel : nat)
    (images : list string) (threshold : Q) (retry_ms timeout_ms : Z) (s : St)
    (t : trace) (s' : St) :
  find_and_click sys fuel images threshold retry_ms timeout_ms s
  = (Ret (Some true), t, s') ->
  exists ms name idx score gx gy m frame tpl min_val min_loc lx ly,
    In (EvMonitors ms) t
    /\ In (Print (LogMatch (Some name) idx score gx gy)) t
    /\ 1 <= idx <= Z.of_nat (List.length (tl ms))
    /\ py_index (tl ms) (idx - 1) = Ret m
    /\ In (EvGrab (Z.to_nat idx, m) (Ret frame)) t
    /\ In (EvMatch (Z.to_nat idx, m) tpl (Ret (min_val, score, min_loc, (lx, ly)))) t
    /\ fst (fst tpl) = name
    /\ gx = center (left m) lx (fst (snd tpl))
    /\ gy = center (top m) ly (snd (snd tpl)).
Proof.
  intro Hrun.
  destruct (find_and_click_iterations sys _ _ _ _ _ _ _ _ _ Hrun)
    as (tl0 & s0 & _ & Hev & [(_ & Hr & _) | (_ & e & tloop & Hr & Ht & Hloop)]);
    [discriminate Hr|].
  destruct Hloop as (failed & Hall & Hnone & [(He & _) | [(He & _)
                    | (last & pre & c & post & ta & He & Hlen & Hlast & Hcs & _ & _
                       & _ & _ & _ & Htl)]]);
    try (injection He as ->; discriminate Hr).
  assert (Hc : In c (scored last)) by (rewrite Hcs; apply in_elt).
  destruct (pass_candidate_origin _ _ last c Hlast Hc) as (Hmon & _ & f & Hf).
  destruct (monitor_objects_numbered _ _ Hmon) as (Hidx & Hrange & Hnth).
  destruct (scored_match_event last c Hc) as (mn & lmn & Hm).
  assert (Hlast_in : forall ev, In ev last -> In ev t).
  { intros ev Hin. rewrite Ht, Htl. right. apply in_or_app. right. right.
    apply in_or_app. left. apply in_or_app. right. apply in_or_app. left. exact Hin. }
  destruct (cand_monitor c) as [a m] eqn:Ecm. simpl in Hidx, Hrange, Hnth.
  destruct (cand_loc c) as [lx ly] eqn:Ecl.
  exists (fst (sct_monitors sys s0)), (fst (fst (cand_template c))), (Z.of_nat a),
    (cand_val c), (fst (click_point c)), (snd (click_point c)), m, f, (cand_template c),
    mn, lmn, lx, ly.
  rewrite Nat2Z.id.
  split; [rewrite Ht; right; apply in_or_app; right; left; reflexivity|].
  split.
  { rewrite Ht, Htl. right. apply in_or_app. right. right.
    apply in_or_app. left. apply in_or_app. right. apply in_or_app. right. left.
    unfold match_line. rewrite Ecm, Hidx. reflexivity. }
  split; [lia|].
  split.
  { replace (Z.of_nat a - 1) with (Z.of_nat (a - 1)) by lia. apply py_index_nth, Hnth. }
  split; [apply Hlast_in, Hf|].
  split; [apply Hlast_in, Hm|].
  split; [reflexivity|].
  unfold click_point. rewrite Ecm, Ecl.
  destruct (cand_template c) as [[n arr] [tw th]]. simpl. split; reflexivity.
Qed.

(** The match on the left monitor is reported on monitor 2. *)
Lemma match_line_monitor_number_witness :
  exists (ms : list Monitor) name idx score gx gy (m : Monitor),
    In (Print (LogMatch (Some name) idx score gx gy))
      (snd (fst (find_and_click world_found 3 default_images default_threshold
                   120 6000 0%nat)))
    /\ 1 <= idx <= Z.of_nat (List.length (tl ms))
    /\ py_index (tl ms) (idx - 1) = Ret m.
Proof.
  destruct (match_line_monitor_number world_found 3 default_images default_threshold
              120 6000 0%nat _ _ eq_refl)
    as (ms & name & idx & score & gx & gy & m & frame & tpl & mn & lmn & lx & ly
        & _ & Hline & Hrange & Hidx & _).
  exists ms, name, idx, score, gx, gy, m.
  split; [exact Hline | split; [exact Hrange | exact Hidx]].
Defined.

(** ** No monitor to look at *)

Lemma monitor_objects_none (ms : list Monitor) : tl ms = [] -> monitor_objects ms = [].
Proof.
  unfold monitor_objects. destruct ms as [|m0 [|m1 rest]]; [reflexivity | reflexivity|].
  discriminate.
Qed.

(** An iteration without monitors is an empty pass and the retry
    sleep. *)
Lemma iteration_no_monitor {St : Type} (sys : Sys St) (templates : list Template)
    (threshold : Q) (retry_ms : Z) (s : St) :
  iteration sys [] templates threshold retry_ms s
  = (Ret None, [EvSleep (retry_sleep retry_ms)], sleep sys (retry_sleep retry_ms) s).
Proof.
  unfold iteration, bind, score_pass, after_pass, retry_sleep. simpl.
  destruct (Qle_bool threshold (-1)); reflexivity.
Qed.

(** Without monitors the loop sleeps from deadline test to deadline
    test: [k] sleeps, each test before them passed, and then the test fails
    or the iterations run out. *)
Lemma search_loop_no_monitor {St : Type} (sys : Sys St) (start : Q)
    (templates : list Template) (threshold : Q) (retry_ms timeout_ms : Z) :
  forall (fuel : nat) (s : St),
  exists k,
    (k <= fuel)%nat
    /\ (forall i, (i < k)%nat ->
          within_timeout start
            (monotonic sys (Nat.iter i (sleep sys (retry_sleep retry_ms)) s)) timeout_ms
          = true)
    /\ ((within_timeout start
           (monotonic sys (Nat.iter k (sleep sys (retry_sleep retry_ms)) s)) timeout_ms
         = false
         /\ search_loop sys fuel start [] templates threshold retry_ms timeout_ms s
            = (Ret Finished, repeat (EvSleep (retry_sleep retry_ms)) k,
               Nat.iter k (sleep sys (retry_sleep retry_ms)) s))
        \/ (k = fuel
            /\ search_loop sys fuel start [] templates threshold retry_ms timeout_ms s
               = (Ret OutOfFuel, repeat (EvSleep (retry_sleep retry_ms)) k,
                  Nat.iter k (sleep sys (retry_sleep retry_ms)) s))).
Proof.
  induction fuel as [|fuel IH]; intro s.
  - exists 0%nat. split; [lia | split; [intros i Hi; lia|]].
    right. split; reflexivity.
  - destruct (within_timeout start (monotonic sys s) timeout_ms) eqn:E.
    + assert (Hstep : search_loop sys (S fuel) start [] templates threshold retry_ms
                        timeout_ms s
                      = (let '(r, t, sf) :=
                           search_loop sys fuel start [] templates threshold retry_ms
                             timeout_ms (sleep sys (retry_sleep retry_ms) s) in
                         (r, EvSleep (retry_sleep retry_ms) :: t, sf))).
      { cbn [search_loop]. rewrite E. unfold bind at 1. rewrite iteration_no_monitor.
        destruct (search_loop sys fuel start [] templates threshold retry_ms timeout_ms
                    (sleep sys (retry_sleep retry_ms) s)) as [[r t] sf].
        reflexivity. }
      destruct (IH (sleep sys (retry_sleep retry_ms) s)) as (k & Hk & Hbefore & Hend).
      exists (S k). split; [lia | split].
      * intros [|i] Hi; [exact E|]. rewrite Nat.iter_succ_r. apply Hbefore. lia.
      * rewrite Nat.iter_succ_r, Hstep.
        destruct Hend as [(Hd & Hrun) | (Hf & Hrun)]; rewrite Hrun.
        -- left. split; [exact Hd | reflexivity].
        -- right. split; [lia | reflexivity].
    + exists 0%nat. split; [lia | split; [intros i Hi; lia|]].
      left. split; [exact E|]. cbn [search_loop]. rewrite E. reflexivity.
Qed.

(** X13. When the enumeration yields no monitor besides the virtual
    bounding box, a call that loaded a template does not fail at once: it
    sleeps the retry interval again and again, capturing and scoring
    nothing and never touching the pointer, as long as the deadline test
    passes, and returns [False] at the first test that fails (or is still
    sleeping when the iterations of the model run out).  This is for a
    retry interval in the range where the retry sleep returns. *)
Theorem no_monitor_never_found {St : Type} (sys : Sys St) (fuel : nat)
    (images : list string) (threshold : Q) (retry_ms timeout_ms : Z) (s : St)
    (tpl : Template) (tpls : list Template) (tl0 : trace) (s0 : St) :
  retry_in_range retry_ms ->
  _load_templates sys images s = (Ret (tpl :: tpls), tl0, s0) ->
  tl (fst (sct_monitors sys s0)) = [] ->
  exists k,
    (k <= fuel)%nat
    /\ (forall i, (i < k)%nat ->
          within_timeout (monotonic sys s0)
            (monotonic sys (Nat.iter i (sleep sys (retry_sleep retry_ms))
                              (snd (sct_monitors sys s0))))
            timeout_ms = true)
    /\ ((within_timeout (monotonic sys s0)
           (monotonic sys (Nat.iter k (sleep sys (retry_sleep retry_ms))
                             (snd (sct_monitors sys s0))))
           timeout_ms = false
         /\ find_and_click sys fuel images threshold retry_ms timeout_ms s
            = (Ret (Some false),
               Print (InfoSearching images threshold retry_ms timeout_ms)
                 :: tl0 ++ EvMonitors (fst (sct_monitors sys s0))
                 :: repeat (EvSleep (retry_sleep retry_ms)) k ++ [Print InfoNoMatch],
               Nat.iter k (sleep sys (retry_sleep retry_ms)) (snd (sct_monitors sys s0))))
        \/ (k = fuel
            /\ find_and_click sys fuel images threshold retry_ms timeout_ms s
               = (Ret None,
                  Print (InfoSearching images threshold retry_ms timeout_ms)
                    :: tl0 ++ EvMonitors (fst (sct_monitors sys s0))
                    :: repeat (EvSleep (retry_sleep retry_ms)) k,
                  Nat.iter k (sleep sys (retry_sleep retry_ms))
                    (snd (sct_monitors sys s0))))).
Proof.
  intros _ Hload Hnone.
  destruct (search_loop_no_monitor sys (monotonic sys s0) (tpl :: tpls) threshold
              retry_ms timeout_ms fuel (snd (sct_monitors sys s0)))
    as (k & Hk & Hbefore & Hend).
  exists k. split; [exact Hk | split; [exact Hbefore|]].
  assert (Hcall : forall e tloop sf,
             search_loop sys fuel (monotonic sys s0) [] (tpl :: tpls) threshold retry_ms
               timeout_ms (snd (sct_monitors sys s0)) = (Ret e, tloop, sf) ->
             find_and_click sys fuel images threshold retry_ms timeout_ms s
             = (Ret (exit_value e),
                Print (InfoSearching images threshold retry_ms timeout_ms)
                  :: tl0 ++ EvMonitors (fst (sct_monitors sys s0)) :: tloop ++ exit_trace e,
                sf)).
  { intros e tloop sf Hloop.
    unfold find_and_click, bind, print, emit, ret. simpl. rewrite Hload.
    destruct (sct_monitors sys s0) as [ms s1] eqn:Ems. simpl in *.
    rewrite (monitor_objects_none ms Hnone), Hloop.
    destruct e; simpl; rewrite ?app_nil_r; reflexivity. }
  destruct Hend as [(Hd & Hrun) | (Hf & Hrun)].
  - left. split; [exact Hd|]. rewrite (Hcall _ _ _ Hrun). reflexivity.
  - right. split; [exact Hf|]. rewrite (Hcall _ _ _ Hrun). simpl.
    rewrite app_nil_r. reflexivity.
Qed.

(** No monitor, a retry every 100 ms and a timeout of 300 ms: three
    sleeps, then [False]. *)
Lemma no_monitor_never_found_witness :
  find_and_click world_headless 10 default_images default_threshold 100 300 0%nat
  = (Ret (Some false),
     Print (InfoSearching default_images default_threshold 100 300)
       :: snd (fst (_load_templates world_headless default_images 0%nat))
       ++ EvMonitors [virtual_box]
       :: repeat (EvSleep (retry_sleep 100)) 3 ++ [Print InfoNoMatch],
     300%nat).
Proof.
  destruct (no_monitor_never_found world_headless 10 default_images default_threshold
              100 300 0%nat _ _ _ _ (retry_in_range_millis 100 ltac:(lia)) eq_refl eq_refl)
    as (k & _ & _ & [(_ & Hrun) | (_ & Hrun)]).
  - rewrite Hrun. vm_compute in Hrun. vm_compute.
    injection Hrun as Htrace Hstate. rewrite <- Htrace, <- Hstate. reflexivity.
  - vm_compute in Hrun. discriminate Hrun.
Defined.

(** ** Where the click lands *)

Lemma quot2_cases (v : Z) : Z.quot v 2 = if 0 <=? v then v / 2 else - ((- v) / 2).
Proof.
  destruct (0 <=? v) eqn:E.
  - apply Z.leb_le in E. apply Z.quot_div_nonneg; lia.
  - apply Z.leb_gt in E.
    replace v with (- (- v)) at 1 by lia.
    rewrite Z.quot_opp_l by lia. rewrite Z.quot_div_nonneg by lia. reflexivity.
Qed.

Lemma center_within (origin offset size extent : Z) :
  0 <= offset -> offset + size <= extent -> 1 <= size ->
  2 <= size \/ 0 <= origin + offset ->
  origin <= center origin offset size < origin + extent.
Proof.
  intros Ho Hfit Hsize Hedge. rewrite center_quot, quot2_cases.
  destruct (0 <=? 2 * (origin + offset) + size) eqn:E.
  - apply Z.leb_le in E.
    pose proof (Z.div_mod (2 * (origin + offset) + size) 2 ltac:(lia)) as Hdm.
    pose proof (Z.mod_pos_bound (2 * (origin + offset) + size) 2 ltac:(lia)) as Hmb.
    lia.
  - apply Z.leb_gt in E.
    pose proof (Z.div_mod (- (2 * (origin + offset) + size)) 2 ltac:(lia)) as Hdm.
    pose proof (Z.mod_pos_bound (- (2 * (origin + offset) + size)) 2 ltac:(lia)) as Hmb.
    lia.
Qed.

(** X14. When the matched window lies within the captured frame, the
    point clicked lies on the monitor where the match was found, provided
    that on each axis the template is at least 2 pixels long or the window
    starts at a non-negative coordinate. *)
Theorem click_point_on_monitor (m : Monitor) (lx ly tw th : Z) :
  0 <= lx -> 0 <= ly ->
  lx + tw <= width m -> ly + th <= height m ->
  1 <= tw -> 1 <= th ->
  2 <= tw \/ 0 <= left m + lx ->
  2 <= th \/ 0 <= top m + ly ->
  in_rect m (center (left m) lx tw) (center (top m) ly th).
Proof.
  intros Hx Hy Hfx Hfy Htw Hth Hex Hey. unfold in_rect. split.
  - apply center_within; assumption.
  - apply center_within; assumption.
Qed.

(** The 51 x 40 template at offset (100, 200) of the left monitor. *)
Lemma click_point_on_monitor_witness : in_rect left_monitor (-1794) 220.
Proof.
  apply (click_point_on_monitor left_monitor 100 200 51 40); simpl; lia.
Defined.

(** A template 1 pixel wide at the right edge of a monitor that ends at
    x = 0: the point clicked is x = 0, on the next monitor. *)
Example click_point_one_pixel_edge :
  center (left left_monitor) 1919 1 = 0 /\ ~ in_rect left_monitor 0 10.
Proof. split; [reflexivity | unfold in_rect; simpl; lia]. Qed.

(** ** The search ends *)

Section Termination.

Context {St : Type} (sys : Sys St) (retry_ms : Z).

Hypothesis Htick : ticking sys retry_ms.

Lemma tpl_loop_clock (mon : MonObj) (frame_bgr : ndarray) (templates : list Template) :
  forall (b : Best) (s : St),
    (monotonic sys s <= monotonic sys (snd (tpl_loop sys mon frame_bgr templates b s)))%Q.
Proof.
  destruct Htick as (_ & Hmatch & _).
  induction templates as [|tp rest IH]; intros b s; simpl.
  - apply Qle_refl.
  - unfold bind. rewrite score_one_run.
    pose proof (Hmatch frame_bgr (snd (fst tp)) s) as H1.
    destruct (match_minmax sys frame_bgr (snd (fst tp)) s) as [[mm|e] s1]; simpl in H1.
    + specialize (IH (update_best b mon tp mm) s1).
      destruct (tpl_loop sys mon frame_bgr rest (update_best b mon tp mm) s1) as [[r t] s'].
      simpl in *. eapply Qle_trans; eassumption.
    + specialize (IH b s1).
      destruct (tpl_loop sys mon frame_bgr rest b s1) as [[r t] s'].
      simpl in *. eapply Qle_trans; eassumption.
Qed.

Lemma mon_loop_clock (templates : list Template) (monitors : list MonObj) :
  forall (b : Best) (s : St),
    (monotonic sys s <= monotonic sys (snd (mon_loop sys monitors templates b s)))%Q.
Proof.
  induction monitors as [|mon rest IH]; intros b s; simpl.
  - apply Qle_refl.
  - unfold bind at 1.
    assert (H1 : (monotonic sys s
                  <= monotonic sys (snd (scan_monitor sys templates mon b s)))%Q).
    { destruct Htick as (Hgrab & _ & _).
      unfold scan_monitor, try_catch, bind, call, print, emit, ret.
      pose proof (Hgrab (snd mon) s) as Hg.
      destruct (grab_bgr sys (snd mon) s) as [[f|e] s1]; simpl in Hg; simpl.
      - pose proof (tpl_loop_clock mon f templates b s1) as Ht.
        destruct (tpl_loop sys mon f templates b s1) as [[r t] s'].
        simpl in *. eapply Qle_trans; eassumption.
      - exact Hg. }
    destruct (scan_monitor_spec sys templates mon b s) as ([[r1 t1] s1] & E1 & Hr1 & _).
    rewrite E1 in *. subst r1. simpl in H1.
    specialize (IH (fold_left keep_better (scored t1) b) s1).
    destruct (mon_loop sys rest templates (fold_left keep_better (scored t1) b) s1)
      as [[r2 t2] s2].
    simpl in *. eapply Qle_trans; eassumption.
Qed.

Lemma retry_sleep_positive : 0 < retry_ms -> retry_sleep retry_ms = (inject_Z retry_ms / 1000)%Q.
Proof.
  intro Hpos. unfold retry_sleep, max0.
  destruct (Qltb 0 (inject_Z retry_ms / 1000)) eqn:E; [reflexivity|].
  exfalso. apply Qltb_false in E.
  unfold Qle, Qdiv, Qmult, Qinv, inject_Z in E. simpl in E. lia.
Qed.

Lemma search_loop_step (fuel : nat) (start : Q) (monitors : list MonObj)
    (templates : list Template) (threshold : Q) (timeout_ms : Z) (s : St) :
  search_loop sys (S fuel) start monitors templates threshold retry_ms timeout_ms s
  = if within_timeout start (monotonic sys s) timeout_ms then
      (r <- iteration sys monitors templates threshold retry_ms ;;
       match r with
       | Some v => ret (Returned v)
       | None => search_loop sys fuel start monitors templates threshold retry_ms timeout_ms
       end) s
    else ret Finished s.
Proof. reflexivity. Qed.

Lemma search_loop_terminates (start : Q) (monitors : list MonObj)
    (templates : list Template) (threshold : Q) (timeout_ms : Z) :
  0 < retry_ms ->
  forall (fuel : nat) (s : St),
    (inject_Z timeout_ms
     <= (monotonic sys s - start) * 1000 + inject_Z (Z.of_nat fuel * retry_ms))%Q ->
    exists e t s',
      search_loop sys (S fuel) start monitors templates threshold retry_ms timeout_ms s
      = (Ret e, t, s')
      /\ e <> OutOfFuel.
Proof.
  intro Hpos. induction fuel as [|fuel IH]; intros s Hbudget.
  - simpl in Hbudget. rewrite search_loop_step.
    assert (E : within_timeout start (monotonic sys s) timeout_ms = false).
    { unfold within_timeout. apply Qltb_false.
      change (inject_Z 0) with 0%Q in Hbudget. lra. }
    rewrite E. eexists _, _, _. split; [reflexivity | discriminate].
  - rewrite search_loop_step.
    destruct (within_timeout start (monotonic sys s) timeout_ms);
      [|eexists _, _, _; split; [reflexivity | discriminate]].
    unfold bind at 1.
    destruct (iteration_spec sys monitors templates threshold retry_ms s)
      as (p & s1 & _ & Hs1 & [[_ Hit]
                            | (pre & c & post & ta & s2 & _ & _ & _ & _ & _ & _ & Hit)]);
      rewrite Hit.
    + assert (Hclock : (monotonic sys s + inject_Z retry_ms / 1000
                        <= monotonic sys (sleep sys (retry_sleep retry_ms) s1))%Q).
      { destruct Htick as (_ & _ & Hsleep).
        pose proof (Hsleep s1) as H2.
        pose proof (mon_loop_clock templates monitors init_best s) as H1.
        unfold score_pass in Hs1. rewrite Hs1 in H1.
        rewrite (retry_sleep_positive Hpos) in H2 at 1. lra. }
      destruct (IH (sleep sys (retry_sleep retry_ms) s1)) as (e & t & s' & Hrun & He).
      { rewrite Nat2Z.inj_succ in Hbudget.
        replace (Z.succ (Z.of_nat fuel) * retry_ms)
          with (Z.of_nat fuel * retry_ms + retry_ms) in Hbudget by lia.
        rewrite inject_Z_plus in Hbudget.
        assert (Hx : (inject_Z retry_ms == inject_Z retry_ms / 1000 * 1000)%Q) by field.
        set (x := (inject_Z retry_ms / 1000)%Q) in *. lra. }
      rewrite Hrun. eexists _, _, _. split; [reflexivity | exact He].
    + eexists _, _, _. split; [reflexivity | discriminate].
Qed.

End Termination.

(** X15. With a positive retry interval, in a world whose clock never
    runs backwards during the enumeration, a capture or a scoring and
    advances by at least the retry interval during the retry sleep, a call
    given more than [timeout_ms / retry_ms] iterations returns [True] or
    [False]: the search ends after at most that many retries. *)
Theorem find_and_click_terminates {St : Type} (sys : Sys St) (fuel : nat)
    (images : list string) (threshold : Q) (retry_ms timeout_ms : Z) (s : St) :
  ticking sys retry_ms ->
  (forall s0, (monotonic sys s0 <= monotonic sys (snd (sct_monitors sys s0)))%Q) ->
  0 < retry_ms ->
  timeout_ms <= Z.of_nat fuel * retry_ms ->
  exists b t s',
    find_and_click sys (S fuel) images threshold retry_ms timeout_ms s
    = (Ret (Some b), t, s').
Proof.
  intros Htick Henum Hpos Hbudget.
  destruct (find_and_click_spec sys (S fuel) images threshold retry_ms timeout_ms s)
    as (tl0 & s0 & _ & _ & [[_ H] | [_ (e & tloop & s1 & Hloop & H)]]).
  - eexists _, _, _. exact H.
  - destruct (search_loop_terminates sys retry_ms Htick (monotonic sys s0)
                (monitor_objects (fst (sct_monitors sys s0)))
                (flat_map loaded_of (imread_calls tl0)) threshold timeout_ms Hpos fuel
                (snd (sct_monitors sys s0)))
      as (e' & t' & s'' & Hrun & He).
    { pose proof (Henum s0) as H0.
      assert (Hz : (inject_Z timeout_ms <= inject_Z (Z.of_nat fuel * retry_ms))%Q).
      { rewrite <- Zle_Qle. exact Hbudget. }
      lra. }
    rewrite Hrun in Hloop. injection Hloop as <- <- <-.
    rewrite H. destruct e'; [| |contradiction]; eexists _, _, _; reflexivity.
Qed.

Lemma world_half_ticking : ticking world_half 100.
Proof.
  split; [|split].
  - intros m s. simpl. unfold Qle, Qdiv, Qmult, Qinv, inject_Z. simpl. lia.
  - intros f t s. simpl. unfold Qle, Qdiv, Qmult, Qinv, inject_Z. simpl. lia.
  - intro s. change (retry_sleep 100) with (100 # 1000)%Q. simpl.
    change (Z.to_nat (Qfloor ((100 # 1000) * 1000))) with 100%nat.
    unfold Qle, Qplus, Qdiv, Qmult, Qinv, inject_Z. simpl. lia.
Qed.

(** Retry every 100 ms for 300 ms: four iterations are enough. *)
Lemma find_and_click_terminates_witness :
  exists b t s',
    find_and_click world_half 4 default_images default_threshold 100 300 0%nat
    = (Ret (Some b), t, s').
Proof.
  apply (find_and_click_terminates world_half 3 default_images default_threshold 100 300
           0%nat world_half_ticking).
  - intro s0. apply Qle_refl.
  - lia.
  - simpl. lia.
Defined.

(** ** Every path is accounted for *)

Lemma loaded_or_warned (calls : list (string * res (option ndarray))) :
  (List.length (flat_map loaded_of calls) + List.length (flat_map warning_of calls))%nat
  = List.length calls.
Proof.
  induction calls as [|[path [[img|]|e]] calls IH]; simpl; lia.
Qed.

Lemma loaded_from_calls (calls : list (string * res (option ndarray))) :
  Forall (fun tp : Template =>
            In (fst (fst tp)) (map fst calls)
            /\ snd tp = (cols (snd (fst tp)), rows (snd (fst tp)))
            /\ In (fst (fst tp), Ret (Some (snd (fst tp)))) calls)
    (flat_map loaded_of calls).
Proof.
  induction calls as [|[path r] calls IH]; [constructor|].
  assert (Hrest : Forall (fun tp : Template =>
                            In (fst (fst tp)) (map fst ((path, r) :: calls))
                            /\ snd tp = (cols (snd (fst tp)), rows (snd (fst tp)))
                            /\ In (fst (fst tp), Ret (Some (snd (fst tp))))
                                 ((path, r) :: calls))
                    (flat_map loaded_of calls)).
  { eapply Forall_impl; [|exact IH]. intros tp (H1 & H2 & H3).
    split; [right; exact H1 | split; [exact H2 | right; exact H3]]. }
  destruct r as [[img|]|e]; simpl flat_map; try exact Hrest.
  constructor; [|exact Hrest].
  simpl. split; [left; reflexivity | split; [reflexivity | left; reflexivity]].
Qed.

(** X16. Loading accounts for every path exactly once: the number of
    templates loaded plus the number of lines printed equals the number of
    paths.  Each loaded template carries one of the given paths, the image
    that [cv2.imread] returned for it, and as its size the width and height
    of that image. *)
Theorem load_templates_accounts_for_paths {St : Type} (sys : Sys St)
    (images : list string) (s : St)
    (r : res (list Template)) (t : trace) (s' : St) :
  _load_templates sys images s = (r, t, s') ->
  exists loaded,
    r = Ret loaded
    /\ (List.length loaded + List.length (stdout t))%nat = List.length images
    /\ Forall (fun tp : Template =>
                 In (fst (fst tp)) images
                 /\ snd tp = (cols (snd (fst tp)), rows (snd (fst tp)))
                 /\ In (EvImread (fst (fst tp)) (Ret (Some (snd (fst tp))))) t)
         loaded.
Proof.
  intro Hrun.
  destruct (load_templates_spec sys images s) as (t0 & s0 & H & Hp & Ho & _).
  rewrite H in Hrun. injection Hrun as <- <- <-.
  exists (flat_map loaded_of (imread_calls t0)).
  split; [reflexivity | split].
  - rewrite Ho, loaded_or_warned, <- Hp. symmetry. apply length_map.
  - rewrite <- Hp. eapply Forall_impl; [|apply loaded_from_calls].
    intros tp (H1 & H2 & H3). split; [exact H1 | split; [exact H2|]].
    unfold imread_calls in H3. apply in_flat_map in H3.
    destruct H3 as (ev & Hev & Hin).
    destruct ev as [| p r0 | | | | | | |]; simpl in Hin; try contradiction.
    destruct Hin as [Heq | []]. injection Heq as -> ->. exact Hev.
Qed.

(** Three paths, one of them readable: one template and two lines. *)
Lemma load_templates_accounts_for_paths_witness :
  exists loaded,
    fst (fst (_load_templates world_found
                ["corrupt.png"%string; "accept_green.png"%string; "missing.png"%string]
                0%nat))
    = Ret loaded
    /\ (List.length loaded
        + List.length
            (stdout (snd (fst (_load_templates world_found
                                 ["corrupt.png"%string; "accept_green.png"%string;
                                  "missing.png"%string] 0%nat)))))%nat
       = 3%nat.
Proof.
  destruct (load_templates_accounts_for_paths world_found
              ["corrupt.png"%string; "accept_green.png"%string; "missing.png"%string]
              0%nat _ _ _ eq_refl) as (loaded & Hr & Hlen & _).
  exists loaded. split; [exact Hr | exact Hlen].
Defined.

(** ** The two enumerations *)

Lemma map_snd_combine_seq (k : nat) (l : list Monitor) :
  map snd (combine (seq k (List.length l)) l) = l
  /\ map fst (combine (seq k (List.length l)) l) = seq k (List.length l).
Proof.
  revert k. induction l as [|m l IH]; intro k; [split; reflexivity|].
  simpl. destruct (IH (S k)) as (H1 & H2). rewrite H1, H2. split; reflexivity.
Qed.

(** [get_monitors] makes one enumeration and returns it without its
    first entry, the geometry of each monitor unchanged and the order
    kept. *)
Lemma get_monitors_run {St : Type} (sys : Sys St) (s : St) :
  get_monitors sys s
  = (Ret (tl (fst (sct_monitors sys s))),
     [EvMonitors (fst (sct_monitors sys s))],
     snd (sct_monitors sys s)).
Proof.
  unfold get_monitors, bind, ret.
  destruct (sct_monitors sys s) as [ms s1]. simpl fst. simpl snd.
  f_equal. f_equal. f_equal.
  rewrite <- (map_id (tl ms)) at 2. apply map_ext. intros [l t w h]. reflexivity.
Qed.

Lemma monitor_objects_geometry (ms : list Monitor) :
  map snd (monitor_objects ms) = tl ms
  /\ map fst (monitor_objects ms) = seq 1 (List.length (tl ms)).
Proof.
  unfold monitor_objects. destruct ms as [|m0 rest]; [split; reflexivity|].
  simpl. apply (map_snd_combine_seq 1 rest).
Qed.

Lemma map_concat_repeat {A B : Type} (f : A -> B) (l : list A) (k : nat) :
  map f (List.concat (repeat l k)) = List.concat (repeat (map f l) k).
Proof.
  induction k as [|k IH]; [reflexivity|].
  simpl. rewrite map_app, IH. reflexivity.
Qed.

(** The captures of a call that loaded a template: the monitor objects of
    its enumeration, a whole number of times. *)
Lemma grabbed_of_call {St : Type} (sys : Sys St) (fuel : nat) (images : list string)
    (threshold : Q) (retry_ms timeout_ms : Z) (s : St)
    (tpl : Template) (tpls : list Template) (tl0 : trace) (s0 : St)
    (r : res (option bool)) (t : trace) (s' : St) :
  _load_templates sys images s = (Ret (tpl :: tpls), tl0, s0) ->
  find_and_click sys fuel images threshold retry_ms timeout_ms s = (r, t, s') ->
  exists k,
    grabbed t = List.concat (repeat (monitor_objects (fst (sct_monitors sys s0))) k).
Proof.
  intros Hload Hrun.
  destruct (find_and_click_spec sys fuel images threshold retry_ms timeout_ms s)
    as (tl' & s0' & Hl & Hev & Hcases).
  rewrite Hload in Hl. injection Hl as Hloaded <- <-.
  destruct Hcases as [[Hnil _] | [_ (e & tloop & s1 & Hloop & H)]];
    [rewrite <- Hloaded in Hnil; discriminate|].
  rewrite H in Hrun. injection Hrun as <- <- <-.
  pose proof (search_loop_spec sys fuel (monotonic sys s0)
                (monitor_objects (fst (sct_monitors sys s0)))
                (flat_map loaded_of (imread_calls tl0)) threshold retry_ms timeout_ms
                (snd (sct_monitors sys s0))) as Hres.
  rewrite Hloop in Hres.
  destruct Hres as (k & tp & _ & Hg & Hshape).
  destruct (load_trace_inert tl0 Hev) as (_ & Hgl & _).
  exists k.
  change (grabbed (Print (InfoSearching images threshold retry_ms timeout_ms)
                     :: tl0 ++ EvMonitors (fst (sct_monitors sys s0))
                     :: tloop ++ exit_trace e))
    with (grabbed (tl0 ++ [EvMonitors (fst (sct_monitors sys s0))]
                       ++ tloop ++ exit_trace e)).
  rewrite !grabbed_app, Hgl. simpl app.
  change (grabbed [EvMonitors (fst (sct_monitors sys s0))]) with (@nil MonObj).
  simpl app. rewrite <- Hg.
  destruct Hshape as [[He ->] | (n & i & v & gx & gy & ta & He & -> & _ & Hsh)].
  - destruct He as [He | He]; injection He as ->; simpl; apply app_nil_r.
  - injection He as ->. simpl exit_trace.
    destruct (act_trace_inert gx gy ta Hsh) as (_ & Hga & _).
    rewrite grabbed_app.
    change (grabbed (Print (LogMatch n i v gx gy) :: ta)) with (grabbed ta).
    rewrite Hga. simpl. rewrite !app_nil_r. reflexivity.
Qed.

(** X17. When the display configuration is the same at the enumeration
    made by [get_monitors] and at the one made by [find_and_click], the
    search captures, pass after pass and in the same order, exactly the
    monitors that [get_monitors] returned, and the identity under which it
    knows each of them is the monitor's 1-based position in that list. *)
Theorem get_monitors_lists_scanned_monitors {St : Type} (sys : Sys St) (fuel : nat)
    (images : list string) (threshold : Q) (retry_ms timeout_ms : Z) (s sg : St)
    (tpl : Template) (tpls : list Template) (tl0 : trace) (s0 : St)
    (r : res (option bool)) (t : trace) (s' : St) :
  _load_templates sys images s = (Ret (tpl :: tpls), tl0, s0) ->
  fst (sct_monitors sys s0) = fst (sct_monitors sys sg) ->
  find_and_click sys fuel images threshold retry_ms timeout_ms s = (r, t, s') ->
  exists gm k,
    fst (fst (get_monitors sys sg)) = Ret gm
    /\ map snd (grabbed t) = List.concat (repeat gm k)
    /\ map fst (grabbed t) = List.concat (repeat (seq 1 (List.length gm)) k).
Proof.
  intros Hload Hsame Hrun.
  destruct (grabbed_of_call sys _ _ _ _ _ _ _ _ _ _ _ _ _ Hload Hrun) as (k & Hg).
  exists (tl (fst (sct_monitors sys sg))), k.
  rewrite get_monitors_run. split; [reflexivity|].
  rewrite Hg, !map_concat_repeat, Hsame.
  destruct (monitor_objects_geometry (fst (sct_monitors sys sg))) as (H1 & H2).
  rewrite H1, H2. split; reflexivity.
Qed.

(** Three passes over the two monitors that [get_monitors] lists. *)
Lemma get_monitors_lists_scanned_monitors_witness :
  map snd (grabbed (snd (fst (find_and_click world_half 10 default_images
                                default_threshold 100 300 0%nat))))
  = List.concat (repeat [primary; left_monitor] 3).
Proof.
  destruct (get_monitors_lists_scanned_monitors world_half 10 default_images
              default_threshold 100 300 0%nat 0%nat _ _ _ _ _ _ _
              eq_refl eq_refl eq_refl)
    as (gm & k & Hgm & Hsnd & _).
  vm_compute. reflexivity.
Defined.

Example get_monitors_two :
  get_monitors world_found 0%nat = (Ret [primary; left_monitor], [EvMonitors two_monitors], 0%nat)
  /\ fst (fst (get_monitors world_headless 0%nat)) = Ret [].
Proof. split; reflexivity. Qed.
